(** * RecomText: preprocessing (data/software_socdem.py) and the training
      loop (trainers/trainer.py), as a shallow embedding.

    Conventions of the embedding.
    - A Python [str] is a Rocq [string] holding the UTF-8 bytes of the text,
      so [text.encode()] is the list of its bytes.
    - Python [int] is [Z]; a Python [float] is modelled by a rational [Q]
      (no rounding, no NaN); [float('-inf')] is a separate constructor.
    - A Python [dict] keyed by strings is a [gmap string _] where only
      lookups matter, and an association list where the insertion order is
      observable (the language table of a user description).
    - A call that may raise returns a [res]; code that also prints or talks
      to the outside world runs in the monad [M]. *)

From Stdlib Require Import ZArith QArith List String Ascii Lia Bool.
From Stdlib Require Import Sorting.Sorted Sorting.Permutation.
From stdpp Require Import base option list sorting gmap strings pretty.
Import ListNotations.

Local Open Scope Z_scope.
Local Open Scope string_scope.
Local Open Scope list_scope.

(* ===================================================================== *)
(** ** SHA-256 (FIPS 180-4), the function behind [hashlib.sha256]          *)
(* ===================================================================== *)

Module Sha256.

(** 32-bit words are integers in [0, 2^32); every operation that can leave
    the range wraps around explicitly. *)
Definition wrap32 (x : Z) : Z := x mod 2 ^ 32.
Definition add32 (a b : Z) : Z := wrap32 (a + b).
Definition shr (n x : Z) : Z := Z.shiftr x n.
Definition rotr (n x : Z) : Z :=
  Z.lor (Z.shiftr x n) (wrap32 (Z.shiftl x (32 - n))).
Definition not32 (x : Z) : Z := Z.lxor x 0xFFFFFFFF.

Definition Ch (x y z : Z) : Z := Z.lxor (Z.land x y) (Z.land (not32 x) z).
Definition Maj (x y z : Z) : Z :=
  Z.lxor (Z.lxor (Z.land x y) (Z.land x z)) (Z.land y z).
Definition bsig0 (x : Z) : Z := Z.lxor (Z.lxor (rotr 2 x) (rotr 13 x)) (rotr 22 x).
Definition bsig1 (x : Z) : Z := Z.lxor (Z.lxor (rotr 6 x) (rotr 11 x)) (rotr 25 x).
Definition ssig0 (x : Z) : Z := Z.lxor (Z.lxor (rotr 7 x) (rotr 18 x)) (shr 3 x).
Definition ssig1 (x : Z) : Z := Z.lxor (Z.lxor (rotr 17 x) (rotr 19 x)) (shr 10 x).

(** Round constants: the first 32 bits of the fractional parts of the cube
    roots of the first 64 primes. *)
Definition round_constants : list Z :=
  [ 0x428A2F98; 0x71374491; 0xB5C0FBCF; 0xE9B5DBA5;
    0x3956C25B; 0x59F111F1; 0x923F82A4; 0xAB1C5ED5;
    0xD807AA98; 0x12835B01; 0x243185BE; 0x550C7DC3;
    0x72BE5D74; 0x80DEB1FE; 0x9BDC06A7; 0xC19BF174;
    0xE49B69C1; 0xEFBE4786; 0x0FC19DC6; 0x240CA1CC;
    0x2DE92C6F; 0x4A7484AA; 0x5CB0A9DC; 0x76F988DA;
    0x983E5152; 0xA831C66D; 0xB00327C8; 0xBF597FC7;
    0xC6E00BF3; 0xD5A79147; 0x06CA6351; 0x14292967;
    0x27B70A85; 0x2E1B2138; 0x4D2C6DFC; 0x53380D13;
    0x650A7354; 0x766A0ABB; 0x81C2C92E; 0x92722C85;
    0xA2BFE8A1; 0xA81A664B; 0xC24B8B70; 0xC76C51A3;
    0xD192E819; 0xD6990624; 0xF40E3585; 0x106AA070;
    0x19A4C116; 0x1E376C08; 0x2748774C; 0x34B0BCB5;
    0x391C0CB3; 0x4ED8AA4A; 0x5B9CCA4F; 0x682E6FF3;
    0x748F82EE; 0x78A5636F; 0x84C87814; 0x8CC70208;
    0x90BEFFFA; 0xA4506CEB; 0xBEF9A3F7; 0xC67178F2 ].

(** The eight working variables / the chaining value. *)
Record state := State {
  ha : Z; hb : Z; hc : Z; hd : Z; he : Z; hf : Z; hg : Z; hh : Z }.

Definition initial_state : state :=
  State 0x6A09E667 0xBB67AE85 0x3C6EF372 0xA54FF53A
        0x510E527F 0x9B05688C 0x1F83D9AB 0x5BE0CD19.

(** Padding: a 1 bit, zeros up to 56 mod 64 bytes, the bit length on
    64 bits, big endian. *)
Definition be_bytes (n : nat) (x : Z) : list Z :=
  map (fun i => Z.land (Z.shiftr x (8 * Z.of_nat i)) 0xFF) (rev (seq 0 n)).

Definition pad (msg : list Z) : list Z :=
  let len := Z.of_nat (length msg) in
  let zeros := Z.to_nat ((55 - len) mod 64) in
  msg ++ [0x80] ++ repeat 0 zeros ++ be_bytes 8 (8 * len).

Fixpoint blocks (n : nat) (bs : list Z) : list (list Z) :=
  match n with
  | O => []
  | S n' => firstn 64 bs :: blocks n' (skipn 64 bs)
  end.

Definition be_word (bs : list Z) : Z :=
  fold_left (fun acc b => Z.lor (Z.shiftl acc 8) b) bs 0.

Fixpoint words (n : nat) (bs : list Z) : list Z :=
  match n with
  | O => []
  | S n' => be_word (firstn 4 bs) :: words n' (skipn 4 bs)
  end.

(** Message schedule: 16 words of the block, then 48 derived ones. *)
Definition next_word (w : list Z) : Z :=
  let t := length w in
  add32 (add32 (ssig1 (nth (t - 2) w 0)) (nth (t - 7) w 0))
        (add32 (ssig0 (nth (t - 15) w 0)) (nth (t - 16) w 0)).

Fixpoint extend (n : nat) (w : list Z) : list Z :=
  match n with
  | O => w
  | S n' => extend n' (w ++ [next_word w])
  end.

Definition schedule (block : list Z) : list Z := extend 48 (words 16 block).

Definition round (s : state) (kw : Z * Z) : state :=
  let '(k, w) := kw in
  let t1 := add32 (add32 (add32 (add32 (hh s) (bsig1 (he s)))
                                (Ch (he s) (hf s) (hg s))) k) w in
  let t2 := add32 (bsig0 (ha s)) (Maj (ha s) (hb s) (hc s)) in
  State (add32 t1 t2) (ha s) (hb s) (hc s) (add32 (hd s) t1) (he s) (hf s) (hg s).

Definition compress (h : state) (block : list Z) : state :=
  let s := fold_left round (combine round_constants (schedule block)) h in
  State (add32 (ha h) (ha s)) (add32 (hb h) (hb s))
        (add32 (hc h) (hc s)) (add32 (hd h) (hd s))
        (add32 (he h) (he s)) (add32 (hf h) (hf s))
        (add32 (hg h) (hg s)) (add32 (hh h) (hh s)).

Definition sha256 (msg : list Z) : state :=
  let p := pad msg in
  fold_left compress (blocks (length p / 64) p) initial_state.

(** [hexdigest]: each word as eight lower-case hexadecimal digits. *)
Definition hex_digit (d : Z) : ascii :=
  match d with
  | 0 => "0" | 1 => "1" | 2 => "2" | 3 => "3" | 4 => "4" | 5 => "5"
  | 6 => "6" | 7 => "7" | 8 => "8" | 9 => "9" | 10 => "a" | 11 => "b"
  | 12 => "c" | 13 => "d" | 14 => "e" | _ => "f"
  end%char.

Definition hex_word (x : Z) : list ascii :=
  map (fun i => hex_digit (Z.land (Z.shiftr x (4 * Z.of_nat i)) 0xF))
      (rev (seq 0 8)).

Definition state_words (s : state) : list Z :=
  [ha s; hb s; hc s; hd s; he s; hf s; hg s; hh s].

Definition hexdigest (s : state) : string :=
  string_of_list_ascii (concat (map hex_word (state_words s))).

End Sha256.

(* ===================================================================== *)
(** ** data/software_socdem.py                                             *)
(* ===================================================================== *)

Module SoftwareSocdem.

(** [text.encode()] *)
Definition encode (text : string) : list Z :=
  map (fun c => Z.of_N (N_of_ascii c)) (list_ascii_of_string text).

(** [hashlib.sha256(text.encode()).hexdigest()[:16]] *)
Definition create_hash (text : string) : string :=
  substring 0 16 (Sha256.hexdigest (Sha256.sha256 (encode text))).

Example create_hash_empty : create_hash "" = "e3b0c44298fc1c14".
Proof. vm_compute. reflexivity. Qed.

Example create_hash_abc : create_hash "abc" = "ba7816bf8f01cfea".
Proof. vm_compute. reflexivity. Qed.

Example hexdigest_abc :
  Sha256.hexdigest (Sha256.sha256 (encode "abc"))
  = "ba7816bf8f01cfea414140de5dae2223b00361a396177a9cb410ff61f20015ad".
Proof. vm_compute. reflexivity. Qed.

(** One, two and three blocks: 55 bytes still fit the first block with the
    padding, 56 and 64 bytes need a second one, 120 bytes a third. *)
Definition a_times (n : nat) : string := string_of_list_ascii (repeat "a"%char n).

Example hexdigest_55 :
  Sha256.hexdigest (Sha256.sha256 (encode (a_times 55)))
  = "9f4390f8d30c2dd92ec9f095b65e2b9ae9b0a925a5258e241c9f1e910f734318".
Proof. vm_compute. reflexivity. Qed.

Example hexdigest_56 :
  Sha256.hexdigest (Sha256.sha256 (encode (a_times 56)))
  = "b35439a4ac6f0948b6d6f9e3c6af0f5f590ce20f1bde7090ef7970686ec6738a".
Proof. vm_compute. reflexivity. Qed.

Example hexdigest_64 :
  Sha256.hexdigest (Sha256.sha256 (encode (a_times 64)))
  = "ffe054fe7ae0cb6dc65c3af9b61d5209f439851db43d0ba5997337df154668eb".
Proof. vm_compute. reflexivity. Qed.

Example hexdigest_120 :
  Sha256.hexdigest (Sha256.sha256 (encode (a_times 120)))
  = "2f3d335432c70b580af0e8e1b3674a7c020d683aa5f73aaaedfdc55af904c21c".
Proof. vm_compute. reflexivity. Qed.

Example create_hash_repo : create_hash "torvalds/linux" = "6d2d5b87602bc0c6".
Proof. vm_compute. reflexivity. Qed.

(** *** The digest has a fixed shape *)



Lemma hex_word_length x : length (Sha256.hex_word x) = 8%nat.
Proof. reflexivity. Qed.








(** *** The repository table *)

(** One row of the table returned by [load_data], with the columns the
    history builders read. [pushedAt] is [None] for a missing timestamp
    (pandas' NaT); a language entry [{"name": n, "size": s}] is the pair
    [(n, s)]. *)
Record repo := Repo {
  owner : string;
  nameWithOwner : string;
  pushedAt : option Z;
  languages : list (string * Z);
  stars : Z;
  forks : Z;
  watchers : Z;
  defaultBranchCommitCount : Z }.

(** [df['repo_id'] = df['nameWithOwner'].apply(create_hash)] and
    [df['owner_hash'] = df['owner'].apply(create_hash)]: two columns that
    are functions of the row. *)
Definition repo_id (r : repo) : string := create_hash (nameWithOwner r).
Definition owner_hash (r : repo) : string := create_hash (owner r).

(** Ascending order of timestamps as [sort_values] uses it: missing values
    come last. *)
Definition ts_le (a b : option Z) : Prop :=
  match a, b with
  | Some x, Some y => x <= y
  | _, None => True
  | None, Some _ => False
  end.

Definition pushed_le (a b : repo) : Prop := ts_le (pushedAt a) (pushedAt b).

Global Instance ts_le_dec a b : Decision (ts_le a b).
Proof. destruct a, b; simpl; apply _. Defined.

Global Instance pushed_le_dec a b : Decision (pushed_le a b).
Proof. unfold pushed_le. apply _. Defined.

Global Instance pushed_le_trans : Transitive pushed_le.
Proof.
  intros a b c. unfold pushed_le.
  destruct (pushedAt a), (pushedAt b), (pushedAt c); simpl; try tauto; lia.
Qed.

Global Instance pushed_le_total : Total pushed_le.
Proof.
  intros a b. unfold pushed_le.
  destruct (pushedAt a), (pushedAt b); simpl; try tauto; lia.
Qed.

(** Group keys come out of [groupby] in ascending order. *)
Definition str_le (a b : string) : Prop := String.leb a b = true.

Global Instance str_le_dec a b : Decision (str_le a b).
Proof. unfold str_le. apply _. Defined.

(** [df.groupby('owner_hash')['repo_id'].agg(list).reset_index()]: one row
    per distinct key, keys ascending, and in each row the [repo_id]s of the
    key's rows in the order the rows have in [df]. *)
Definition groupby_owner_hash (df : list repo) : list (string * list string) :=
  map (fun k => (k, map repo_id (filter (fun r => owner_hash r = k) df)))
      (merge_sort str_le (remove_dups (map owner_hash df))).

Section RepoHistory.

(** [df.sort_values('pushedAt')]: pandas sorts with an unstable algorithm,
    so the order among equal timestamps is not fixed; the builder is
    parameterised by the sorting function. *)
Variable sort_values : list repo -> list repo.

Definition create_repo_history_sorted (df : list repo)
  : list (string * list string) :=
  let df := sort_values df in
  let user_history := groupby_owner_hash df in
  filter (fun kv => (1 < length (snd kv))%nat) user_history.

End RepoHistory.

(** The rows of the table that belong to owner id [h]. *)
Definition owned (h : string) (df : list repo) : list repo :=
  filter (fun r => owner_hash r = h) df.

(** The sorting function used to run the builder on examples. *)
Definition sort_by_pushedAt : list repo -> list repo := merge_sort pushed_le.

Arguments create_hash : simpl never.

(** *** Facts about the history builder *)

Lemma StronglySorted_filter {A} (R : relation A) (P : A -> Prop)
    `{forall x, Decision (P x)} (l : list A) :
  StronglySorted R l -> StronglySorted R (filter P l).
Proof.
  induction 1 as [|x l Hl IH Hx]; [constructor|].
  rewrite filter_cons. destruct (decide (P x)); [|exact IH].
  constructor; [exact IH|].
  apply Forall_forall. intros y Hy.
  apply list_elem_of_filter in Hy as [_ Hy].
  rewrite Forall_forall in Hx. now apply Hx.
Qed.

Lemma groupby_keys_NoDup (df : list repo) :
  NoDup (map fst (groupby_owner_hash df)).
Proof.
  unfold groupby_owner_hash. rewrite map_map. simpl. rewrite map_id.
  rewrite merge_sort_Permutation. apply NoDup_remove_dups.
Qed.

Lemma groupby_elem (df : list repo) h items :
  (h, items) ∈ groupby_owner_hash df <->
  h ∈ map owner_hash df /\
  items = map repo_id (filter (fun r => owner_hash r = h) df).
Proof.
  unfold groupby_owner_hash. rewrite list_elem_of_fmap. split.
  - intros [k [Hk Hin]]. inversion Hk; subst. split; [|reflexivity].
    rewrite merge_sort_Permutation in Hin.
    now rewrite elem_of_remove_dups in Hin.
  - intros [Hin ->]. exists h. split; [reflexivity|].
    now rewrite merge_sort_Permutation, elem_of_remove_dups.
Qed.

Lemma NoDup_fst_filter {A B} (Q : A * B -> Prop) `{forall x, Decision (Q x)}
    (l : list (A * B)) :
  NoDup (map fst l) -> NoDup (map fst (filter Q l)).
Proof.
  induction l as [|x l IH]; simpl; [intros _; constructor|].
  intros Hnd. apply NoDup_cons in Hnd as [Hx Hnd].
  rewrite filter_cons. destruct (decide (Q x)); [|auto].
  simpl. apply NoDup_cons. split; [|auto].
  intros Hin. apply Hx.
  apply list_elem_of_fmap in Hin as [y [-> Hy]].
  apply list_elem_of_filter in Hy as [_ Hy].
  now apply list_elem_of_fmap_2.
Qed.

Section RepoHistoryFacts.

Variable sort_values : list repo -> list repo.
Variable df : list repo.
Hypothesis sort_perm : sort_values df ≡ₚ df.
Hypothesis sort_sorted : Sorted pushed_le (sort_values df).

Lemma owned_sorted_perm h : owned h (sort_values df) ≡ₚ owned h df.
Proof. unfold owned. now rewrite sort_perm. Qed.

Lemma history_elem h items :
  (h, items) ∈ create_repo_history_sorted sort_values df <->
  items = map repo_id (owned h (sort_values df)) /\
  (2 <= length (owned h df))%nat.
Proof.
  unfold create_repo_history_sorted.
  rewrite list_elem_of_filter, groupby_elem. simpl.
  pose proof (Permutation_length (owned_sorted_perm h)) as Hlen.
  fold (owned h (sort_values df)). split.
  - intros [Hl [_ ->]]. split; [reflexivity|].
    rewrite length_map in Hl. lia.
  - intros [-> Hl]. rewrite length_map. split; [lia|]. split; [|reflexivity].
    destruct (owned h (sort_values df)) as [|r l] eqn:E; [simpl in Hlen; lia|].
    assert (Hr : r ∈ owned h (sort_values df)) by (rewrite E; left).
    apply list_elem_of_filter in Hr as [<- Hr].
    now apply list_elem_of_fmap_2.
Qed.

(** C7. The sorted id-history has one row per owner id, an owner id has a
    row exactly when it owns at least two repositories (so owners with one
    repository or none are left out), and the row of an owner id lists the
    ids of exactly its repositories, in an order in which the [pushedAt]
    timestamps never decrease (rows without a timestamp last). *)
Theorem create_repo_history_sorted_spec :
  let history := create_repo_history_sorted sort_values df in
  NoDup (map fst history) /\
  (forall h, h ∈ map fst history <-> (2 <= length (owned h df))%nat) /\
  (forall h, (length (owned h df) <= 1)%nat -> h ∉ map fst history) /\
  (forall h items, (h, items) ∈ history ->
     exists rs, rs ≡ₚ owned h df /\ items = map repo_id rs /\
                Sorted pushed_le rs).
Proof.
  assert (Hkeys : forall h,
    h ∈ map fst (create_repo_history_sorted sort_values df)
    <-> (2 <= length (owned h df))%nat).
  { intros h. rewrite list_elem_of_fmap. split.
    - intros [[h' items] [-> Hin]]. now apply history_elem in Hin as [_ Hl].
    - intros Hl. exists (h, map repo_id (owned h (sort_values df))).
      split; [reflexivity|]. now apply history_elem. }
  simpl. split; [|split; [exact Hkeys|split]].
  - unfold create_repo_history_sorted.
    apply NoDup_fst_filter, groupby_keys_NoDup.
  - intros h Hl Hin. apply Hkeys in Hin. lia.
  - intros h items Hin. apply history_elem in Hin as [-> _].
    exists (owned h (sort_values df)).
    split; [apply owned_sorted_perm|]. split; [reflexivity|].
    apply StronglySorted_Sorted, StronglySorted_filter.
    now apply Sorted_StronglySorted; [apply _|].
Qed.

End RepoHistoryFacts.

(** The scenario of the specification: [alice] owns three repositories
    pushed at times 1, 3 and 2 (in table order), [bob] owns one. *)
Definition mk_repo (o n : string) (t : Z) : repo :=
  Repo o n (Some t) [] 0 0 0 0.

Definition two_owners : list repo :=
  [ mk_repo "alice" "alice/r1" 1; mk_repo "bob" "bob/r" 5;
    mk_repo "alice" "alice/r2" 3; mk_repo "alice" "alice/r3" 2 ].

Example two_owners_history :
  create_repo_history_sorted sort_by_pushedAt two_owners
  = [ (create_hash "alice",
       [create_hash "alice/r1"; create_hash "alice/r3"; create_hash "alice/r2"]) ].
Proof. vm_compute. reflexivity. Qed.

Lemma create_repo_history_sorted_spec_witness :
  let history := create_repo_history_sorted sort_by_pushedAt two_owners in
  NoDup (map fst history) /\
  (forall h, h ∈ map fst history <-> (2 <= length (owned h two_owners))%nat) /\
  (forall h, (length (owned h two_owners) <= 1)%nat -> h ∉ map fst history) /\
  (forall h items, (h, items) ∈ history ->
     exists rs, rs ≡ₚ owned h two_owners /\ items = map repo_id rs /\
                Sorted pushed_le rs).
Proof.
  apply (create_repo_history_sorted_spec sort_by_pushedAt two_owners).
  - apply merge_sort_Permutation.
  - apply Sorted_merge_sort, _.
Defined.

(** *** [create_user_description] *)

(** The [languages] dict of [create_description]; a Python dict keeps its
    keys in insertion order, which the later sort observes on ties.
    [dict_add d name sz] is
    [if name in d: d[name] += sz else: d[name] = sz]. *)
Fixpoint dict_add (d : list (string * Z)) (name : string) (sz : Z)
  : list (string * Z) :=
  match d with
  | [] => [(name, sz)]
  | (n, w) :: rest =>
      if decide (n = name) then (n, w + sz) :: rest
      else (n, w) :: dict_add rest name sz
  end.

(** [for langs in group['languages']: for lang in langs: ...] *)
Definition collect_languages (group : list repo) : list (string * Z) :=
  fold_left
    (fun d langs => fold_left (fun d lang => dict_add d (fst lang) (snd lang)) langs d)
    (map languages group) [].

(** [sorted(items, key=lambda x: x[1], reverse=True)]: Python's sort is
    stable, also with [reverse=True], so entries of equal weight keep their
    order. *)
Fixpoint insert_desc (x : string * Z) (l : list (string * Z))
  : list (string * Z) :=
  match l with
  | [] => [x]
  | y :: l' => if Z.ltb (snd x) (snd y) then y :: insert_desc x l' else x :: l
  end.

Definition sorted_desc (l : list (string * Z)) : list (string * Z) :=
  fold_right insert_desc [] l.

Definition top_languages (group : list repo) : list (string * Z) :=
  firstn 3 (sorted_desc (collect_languages group)).

(** [f"{lang} ({size} байт)"] *)
Definition render_language (x : string * Z) : string :=
  fst x +:+ " (" +:+ pretty (snd x) +:+ " байт)".

Definition top_langs_str (group : list repo) : string :=
  String.concat ", " (map render_language (top_languages group)).

Definition sum_column (f : repo -> Z) (group : list repo) : Z :=
  fold_right Z.add 0 (map f group).

Definition create_description (group : list repo) : string :=
  "passage: Владелец " +:+ pretty (length group) +:+ " репозиториев, "
  +:+ "всего " +:+ pretty (sum_column stars group) +:+ " звезд, "
  +:+ pretty (sum_column forks group) +:+ " форков, "
  +:+ pretty (sum_column watchers group) +:+ " наблюдателей, "
  +:+ pretty (sum_column defaultBranchCommitCount group) +:+ " коммитов. "
  +:+ "Основные языки: " +:+ top_langs_str group.

(** [df.groupby('owner_hash').apply(create_description)] *)
Definition create_user_description (df : list repo) : list (string * string) :=
  map (fun k => (k, create_description (owned k df)))
      (merge_sort str_le (remove_dups (map owner_hash df))).

(** The scenario of the specification: one owner, language weights
    Python 100, Go 50, Python 30 spread over two repositories. *)
Definition polyglot : list repo :=
  [ Repo "carol" "carol/a" (Some 1) [("Python", 100); ("Go", 50)] 3 1 2 10;
    Repo "carol" "carol/b" (Some 2) [("Python", 30)] 4 0 1 5 ].

Example polyglot_languages :
  collect_languages polyglot = [("Python", 130); ("Go", 50)].
Proof. reflexivity. Qed.

Example polyglot_top : top_langs_str polyglot = "Python (130 байт), Go (50 байт)".
Proof. vm_compute. reflexivity. Qed.

Example polyglot_description :
  create_description polyglot
  = "passage: Владелец 2 репозиториев, всего 7 звезд, 1 форков, 3 наблюдателей, 15 коммитов. Основные языки: Python (130 байт), Go (50 байт)".
Proof. vm_compute. reflexivity. Qed.

(** *** Facts about the language table *)

Definition step_language (d : list (string * Z)) (lang : string * Z) :=
  dict_add d (fst lang) (snd lang).

(** Lookup in the dict, and the total size a name has in a list of entries. *)
Fixpoint dict_get (d : list (string * Z)) (name : string) : option Z :=
  match d with
  | [] => None
  | (n, w) :: rest => if decide (n = name) then Some w else dict_get rest name
  end.

Definition weight_of (name : string) (entries : list (string * Z)) : Z :=
  fold_right Z.add 0 (map snd (filter (fun e => fst e = name) entries)).

Definition heavier (a b : string * Z) : Prop := snd b <= snd a.

Lemma collect_languages_flat group :
  collect_languages group
  = fold_left step_language (concat (map languages group)) [].
Proof.
  unfold collect_languages. generalize (@nil (string * Z)) as d.
  induction (map languages group) as [|l ls IH]; intros d; simpl;
    [reflexivity|].
  rewrite fold_left_app. apply IH.
Qed.

Lemma dict_get_None d name : dict_get d name = None <-> name ∉ map fst d.
Proof.
  induction d as [|[n w] d IH]; simpl.
  - split; [intros _ H; inversion H | reflexivity].
  - destruct (decide (n = name)) as [->|Hne].
    + split; [discriminate | intros H; exfalso; apply H; left].
    + rewrite IH. rewrite not_elem_of_cons. split; [split; [congruence|tauto] | tauto].
Qed.

Lemma dict_get_elem d name w :
  NoDup (map fst d) -> (name, w) ∈ d <-> dict_get d name = Some w.
Proof.
  induction d as [|[n w0] d IH]; simpl; intros Hnd.
  - split; [intros H; inversion H | discriminate].
  - apply NoDup_cons in Hnd as [Hn Hnd]. rewrite elem_of_cons.
    destruct (decide (n = name)) as [->|Hne].
    + split.
      * intros [H|H]; [now inversion H|].
        exfalso. apply Hn. now apply (list_elem_of_fmap_2 fst) in H.
      * intros [= ->]. now left.
    + rewrite IH by exact Hnd. split; [|tauto].
      intros [H|H]; [inversion H; congruence | exact H].
Qed.

Lemma dict_add_get d n sz name :
  dict_get (dict_add d n sz) name
  = if decide (n = name)
    then Some (match dict_get d n with Some w => w + sz | None => sz end)
    else dict_get d name.
Proof.
  induction d as [|[n0 w0] d IH]; simpl.
  - destruct (decide (n = name)); reflexivity.
  - destruct (decide (n0 = n)) as [->|Hne]; simpl.
    + destruct (decide (n = name)); reflexivity.
    + rewrite IH. destruct (decide (n0 = name)) as [->|Hne'].
      * destruct (decide (n = name)); [congruence | reflexivity].
      * reflexivity.
Qed.

Lemma dict_add_keys d n sz :
  NoDup (map fst d) -> NoDup (map fst (dict_add d n sz)).
Proof.
  induction d as [|[n0 w0] d IH]; simpl; intros Hnd.
  - apply NoDup_singleton.
  - apply NoDup_cons in Hnd as [Hn Hnd].
    destruct (decide (n0 = n)) as [->|Hne]; simpl.
    + apply NoDup_cons. now split.
    + apply NoDup_cons. split; [|now apply IH].
      apply dict_get_None. rewrite dict_add_get.
      destruct (decide (n = n0)); [congruence|]. now apply dict_get_None.
Qed.

Lemma weight_of_cons name e entries :
  weight_of name (e :: entries)
  = if decide (fst e = name) then snd e + weight_of name entries
    else weight_of name entries.
Proof.
  unfold weight_of. rewrite filter_cons.
  destruct (decide (fst e = name)); reflexivity.
Qed.

Lemma fold_step_get entries : forall d name,
  dict_get (fold_left step_language entries d) name
  = match dict_get d name with
    | Some w => Some (w + weight_of name entries)
    | None => if decide (name ∈ map fst entries)
              then Some (weight_of name entries) else None
    end.
Proof.
  induction entries as [|[n sz] entries IH]; intros d name; simpl.
  - destruct (dict_get d name); [f_equal; unfold weight_of; simpl; lia|].
    destruct (decide (name ∈ [])) as [H|_]; [inversion H | reflexivity].
  - rewrite IH. unfold step_language. simpl. rewrite dict_add_get.
    rewrite weight_of_cons. simpl.
    destruct (decide (n = name)) as [->|Hne].
    + destruct (dict_get d name); [f_equal; lia|].
      destruct (decide (name ∈ name :: map fst entries)) as [_|H];
        [reflexivity | exfalso; apply H; left].
    + destruct (dict_get d name); [reflexivity|].
      destruct (decide (name ∈ map fst entries)) as [H|H];
        destruct (decide (name ∈ n :: map fst entries)) as [H'|H'];
        try reflexivity; exfalso.
      * apply H'. now right.
      * apply elem_of_cons in H' as [->|H']; [now apply Hne | now apply H].
Qed.

Lemma fold_step_keys entries : forall d,
  NoDup (map fst d) -> NoDup (map fst (fold_left step_language entries d)).
Proof.
  induction entries as [|e entries IH]; intros d Hd; simpl; [exact Hd|].
  apply IH. now apply dict_add_keys.
Qed.

Lemma insert_desc_perm x l : insert_desc x l ≡ₚ x :: l.
Proof.
  induction l as [|y l IH]; simpl; [reflexivity|].
  destruct (Z.ltb (snd x) (snd y)); [|reflexivity].
  rewrite IH. apply Permutation_swap.
Qed.

Lemma sorted_desc_perm l : sorted_desc l ≡ₚ l.
Proof.
  induction l as [|x l IH]; simpl; [reflexivity|].
  now rewrite insert_desc_perm, IH.
Qed.

Lemma insert_desc_sorted x l :
  Sorted heavier l -> Sorted heavier (insert_desc x l).
Proof.
  induction 1 as [|y l Hl IH Hy]; simpl; [repeat constructor|].
  destruct (Z.ltb (snd x) (snd y)) eqn:E.
  - apply Z.ltb_lt in E. constructor; [exact IH|].
    destruct l as [|z l]; simpl.
    + constructor. unfold heavier. lia.
    + destruct (Z.ltb (snd x) (snd z)); constructor.
      * now inversion Hy.
      * unfold heavier. lia.
  - apply Z.ltb_ge in E. constructor; [now constructor|].
    constructor. exact E.
Qed.

Lemma sorted_desc_sorted l : Sorted heavier (sorted_desc l).
Proof.
  induction l as [|x l IH]; simpl; [constructor|].
  now apply insert_desc_sorted.
Qed.

(** C8. The language table of a user description has one entry per
    language name occurring in the owner's repositories, holding the sum of
    the sizes of all occurrences of that name; the rendered languages are
    the first three entries of the table ordered by decreasing total size;
    and when the owner's entries are Python 100, Go 50, Python 30 the table
    is Python 130, Go 50 and the rendered text lists Python before Go. *)
Theorem user_description_languages (group : list repo) :
  let entries := concat (map languages group) in
  let table := collect_languages group in
  NoDup (map fst table) /\
  (forall name w,
      (name, w) ∈ table <->
      name ∈ map fst entries /\ w = weight_of name entries) /\
  (exists s, s ≡ₚ table /\ Sorted heavier s /\
             top_languages group = firstn 3 s) /\
  (entries = [("Python", 100); ("Go", 50); ("Python", 30)] ->
     table = [("Python", 130); ("Go", 50)] /\
     top_langs_str group = "Python (130 байт), Go (50 байт)").
Proof.
  simpl.
  assert (Hnd : NoDup (map fst (collect_languages group))).
  { rewrite collect_languages_flat. apply fold_step_keys. constructor. }
  split; [exact Hnd|]. split; [|split].
  - intros name w. rewrite dict_get_elem by exact Hnd.
    rewrite collect_languages_flat, fold_step_get. simpl.
    destruct (decide (name ∈ map fst (concat (map languages group))))
      as [Hin|Hin].
    + split; [intros [= <-]; now split | intros [_ ->]; reflexivity].
    + split; [discriminate | tauto].
  - exists (sorted_desc (collect_languages group)).
    split; [apply sorted_desc_perm|]. split; [apply sorted_desc_sorted|].
    reflexivity.
  - intros Hentries. unfold top_langs_str, top_languages.
    rewrite collect_languages_flat, Hentries.
    split; [reflexivity | vm_compute; reflexivity].
Qed.

Lemma user_description_languages_witness :
  collect_languages polyglot = [("Python", 130); ("Go", 50)] /\
  top_langs_str polyglot = "Python (130 байт), Go (50 байт)".
Proof.
  apply (proj2 (proj2 (proj2 (user_description_languages polyglot)))).
  reflexivity.
Defined.

(** *** More about [create_user_description] *)

(** The distinct names of a list, in the order of their first appearance. *)
Fixpoint first_seen (names : list string) : list string :=
  match names with
  | [] => []
  | n :: rest => n :: filter (fun m => m <> n) (first_seen rest)
  end.

Lemma dict_add_fst d n sz :
  map fst (dict_add d n sz)
  = if decide (n ∈ map fst d) then map fst d else map fst d ++ [n].
Proof.
  induction d as [|[n0 w0] d IH]; simpl.
  - destruct (decide (n ∈ [])) as [Hin|_]; [inversion Hin | reflexivity].
  - destruct (decide (n0 = n)) as [->|Hne]; simpl.
    + destruct (decide (n ∈ n :: map fst d)) as [_|Hnot];
        [reflexivity | exfalso; apply Hnot; left].
    + rewrite IH. destruct (decide (n ∈ map fst d)) as [Hin|Hnin].
      * destruct (decide (n ∈ n0 :: map fst d)) as [_|Hnot];
          [reflexivity | exfalso; apply Hnot; now right].
      * destruct (decide (n ∈ n0 :: map fst d)) as [Hin|_]; [|reflexivity].
        apply elem_of_cons in Hin as [->|Hin]; [congruence | contradiction].
Qed.

Lemma fold_step_fst entries : forall d,
  map fst (fold_left step_language entries d)
  = map fst d ++ filter (fun n => n ∉ map fst d) (first_seen (map fst entries)).
Proof.
  induction entries as [|[n sz] entries IH]; intros d; simpl.
  - now rewrite app_nil_r.
  - rewrite IH. unfold step_language. simpl. rewrite dict_add_fst.
    rewrite filter_cons.
    destruct (decide (n ∈ map fst d)) as [Hin|Hnin].
    + destruct (decide (n ∉ map fst d)) as [Hc|_]; [contradiction|].
      f_equal. rewrite list_filter_filter. apply list_filter_iff.
      intros m. split; [|tauto]. intros Hm. split; [exact Hm|].
      intros ->. contradiction.
    + destruct (decide (n ∉ map fst d)) as [_|Hc]; [|contradiction].
      rewrite <- app_assoc. simpl. do 2 f_equal.
      rewrite list_filter_filter. apply list_filter_iff.
      intros m. rewrite not_elem_of_app, list_elem_of_singleton. tauto.
Qed.

Lemma filter_all {A} (P : A -> Prop) `{forall x, Decision (P x)} (l : list A) :
  (forall x, x ∈ l -> P x) -> filter P l = l.
Proof.
  induction l as [|x l IH]; intros Hall; [reflexivity|].
  rewrite filter_cons_True by (apply Hall; left).
  f_equal. apply IH. intros y Hy. apply Hall. now right.
Qed.

(** Inserting into a list sorted by decreasing weight does not disturb the
    entries of any given weight. *)
Lemma insert_desc_stable (w : Z) x l :
  filter (fun e : string * Z => snd e = w) (insert_desc x l)
  = filter (fun e : string * Z => snd e = w) (x :: l).
Proof.
  induction l as [|y l IH]; simpl; [reflexivity|].
  destruct (Z.ltb (snd x) (snd y)) eqn:E; [|reflexivity].
  apply Z.ltb_lt in E.
  rewrite (filter_cons _ y), IH, !filter_cons.
  destruct (decide (snd y = w)) as [Hy|Hy], (decide (snd x = w)) as [Hx|Hx];
    try reflexivity.
  lia.
Qed.

(** X1. In the language table the names stand in the order in which the
    owner's repositories first mention them, and sorting by decreasing
    total size keeps that order among names of equal size: ties in the
    rendered languages go to the language seen first. *)
Theorem languages_ties_first_seen (group : list repo) :
  map fst (collect_languages group)
  = first_seen (map fst (concat (map languages group))) /\
  (forall w : Z,
     filter (fun e : string * Z => snd e = w)
            (sorted_desc (collect_languages group))
     = filter (fun e : string * Z => snd e = w) (collect_languages group)) /\
  top_languages group = firstn 3 (sorted_desc (collect_languages group)).
Proof.
  split; [|split; [|reflexivity]].
  - rewrite collect_languages_flat, fold_step_fst. simpl.
    apply filter_all. intros n _. apply not_elem_of_nil.
  - intros w. induction (collect_languages group) as [|x l IH]; simpl;
      [reflexivity|].
    rewrite insert_desc_stable, !filter_cons, IH. reflexivity.
Qed.

Example ties_example :
  top_languages [Repo "o" "o/a" None [("Go", 5); ("C", 7); ("Rust", 5); ("Zig", 5)] 0 0 0 0]
  = [("C", 7); ("Go", 5); ("Rust", 5)].
Proof. reflexivity. Qed.

Global Instance heavier_trans : Transitive heavier.
Proof. intros a b c. unfold heavier. lia. Qed.

(** X2. The rendered languages really are the heaviest ones: there are
    three of them, or as many as the owner has when that is fewer, and no
    language left out has a larger total size than one that is listed. *)
Theorem top_languages_are_heaviest (group : list repo) :
  length (top_languages group)
  = Nat.min 3 (length (collect_languages group)) /\
  (forall x y : string * Z,
     x ∈ top_languages group ->
     y ∈ collect_languages group -> y ∉ top_languages group ->
     snd y <= snd x).
Proof.
  unfold top_languages. split.
  - rewrite length_take. rewrite (Permutation_length (sorted_desc_perm _)).
    reflexivity.
  - intros x y Hx Hy Hny.
    pose proof (sorted_desc_sorted (collect_languages group)) as Hs.
    apply Sorted_StronglySorted in Hs; [|apply _].
    rewrite <- (sorted_desc_perm (collect_languages group)) in Hy.
    rewrite <- (take_drop 3 (sorted_desc (collect_languages group))) in Hy, Hs.
    apply elem_of_app in Hy as [Hy|Hy]; [contradiction|].
    exact (StronglySorted_app_1_elem_of heavier _ _ x y Hs Hx Hy).
Qed.

Definition total_size (entries : list (string * Z)) : Z :=
  fold_right Z.add 0 (map snd entries).

Lemma dict_add_total d n sz : total_size (dict_add d n sz) = total_size d + sz.
Proof.
  unfold total_size. induction d as [|[n0 w0] d IH]; simpl; [lia|].
  destruct (decide (n0 = n)); simpl; lia.
Qed.

(** X3. Summing into the language table loses nothing: the sizes in the
    table add up to the sizes of all language entries of the owner's
    repositories. *)
Theorem collect_languages_total (group : list repo) :
  total_size (collect_languages group)
  = total_size (concat (map languages group)).
Proof.
  rewrite collect_languages_flat.
  enough (Hgen : forall entries d,
             total_size (fold_left step_language entries d)
             = total_size d + total_size entries)
    by (rewrite Hgen; reflexivity).
  induction entries as [|[n sz] entries IH]; intros d; simpl.
  - change (total_size []) with 0. lia.
  - rewrite IH. unfold step_language. simpl. rewrite dict_add_total.
    change (total_size ((n, sz) :: entries)) with (sz + total_size entries).
    lia.
Qed.

Definition four_languages : list repo :=
  [Repo "dave" "dave/a" None [("Go", 5); ("C", 7)] 0 0 0 0;
   Repo "dave" "dave/b" None [("Rust", 5); ("Zig", 4)] 0 0 0 0].

Lemma top_languages_are_heaviest_witness : snd ("Zig", 4) <= snd ("Rust", 5).
Proof.
  apply (proj2 (top_languages_are_heaviest four_languages)).
  - change (top_languages four_languages)
      with [("C", 7); ("Go", 5); ("Rust", 5)].
    do 2 right. left.
  - change (collect_languages four_languages)
      with [("Go", 5); ("C", 7); ("Rust", 5); ("Zig", 4)].
    do 3 right. left.
  - change (top_languages four_languages)
      with [("C", 7); ("Go", 5); ("Rust", 5)].
    intros Hin.
    repeat (apply elem_of_cons in Hin as [Hin|Hin]; [discriminate Hin|]).
    inversion Hin.
Defined.

Global Instance str_le_total : Total str_le.
Proof. intros a b. apply String.leb_total. Qed.

Lemma string_length_app (s1 s2 : string) :
  String.length (s1 +:+ s2) = (String.length s1 + String.length s2)%nat.
Proof. induction s1 as [|c s1 IH]; simpl; [reflexivity | now rewrite IH]. Qed.

Lemma string_app_assoc (s1 s2 s3 : string) :
  (s1 +:+ s2) +:+ s3 = s1 +:+ (s2 +:+ s3).
Proof.
  induction s1 as [|c s1 IH]; [reflexivity|].
  change (String c ((s1 +:+ s2) +:+ s3) = String c (s1 +:+ (s2 +:+ s3))).
  now rewrite IH.
Qed.

Lemma string_app_nil_r (s : string) : s +:+ "" = s.
Proof.
  induction s as [|c s IH]; [reflexivity|].
  change (String c (s +:+ "") = String c s). now rewrite IH.
Qed.

Lemma concat_nonempty (sep x : string) (l : list string) :
  x <> "" -> String.concat sep (x :: l) <> "".
Proof.
  intros Hx Hc. apply Hx. apply (f_equal String.length) in Hc.
  destruct l as [|y l]; simpl in Hc.
  - now destruct x.
  - rewrite string_length_app in Hc. destruct x; [reflexivity | discriminate Hc].
Qed.

Lemma render_language_nonempty x : render_language x <> "".
Proof.
  unfold render_language. intros Hc.
  apply (f_equal String.length) in Hc.
  rewrite !string_length_app in Hc. simpl in Hc. lia.
Qed.

(** X4. The user-description table has one row for every owner id of the
    input, single-repository owners included, in ascending order of the
    ids; the text of a row is built from exactly the owner's repositories
    and starts with the passage marker and the number of repositories,
    which is at least one. *)
Theorem create_user_description_rows (df : list repo) :
  let out := create_user_description df in
  NoDup (map fst out) /\
  Sorted str_le (map fst out) /\
  (forall h, h ∈ map fst out <-> exists r, r ∈ df /\ owner_hash r = h) /\
  (forall h text,
     (h, text) ∈ out ->
     (1 <= length (owned h df))%nat /\
     text = create_description (owned h df) /\
     exists rest,
       text = "passage: Владелец " +:+ pretty (length (owned h df)) +:+ rest).
Proof.
  assert (Hkeys : map fst (create_user_description df)
                  = merge_sort str_le (remove_dups (map owner_hash df))).
  { unfold create_user_description. rewrite map_map. simpl. apply map_id. }
  simpl. rewrite Hkeys. split; [|split; [|split]].
  - rewrite merge_sort_Permutation. apply NoDup_remove_dups.
  - apply Sorted_merge_sort, _.
  - intros h. rewrite merge_sort_Permutation, elem_of_remove_dups.
    rewrite list_elem_of_fmap. split; intros [r [Hr Hin]]; eauto.
  - intros h text Hin. unfold create_user_description in Hin.
    apply list_elem_of_fmap in Hin as [k [[= -> ->] Hk]].
    rewrite merge_sort_Permutation, elem_of_remove_dups in Hk.
    apply list_elem_of_fmap in Hk as [r [-> Hr]].
    split; [|split; [reflexivity | eexists; reflexivity]].
    assert (Hin : r ∈ owned (owner_hash r) df)
      by (apply list_elem_of_filter; split; [reflexivity | exact Hr]).
    destruct (owned (owner_hash r) df); [inversion Hin | simpl; lia].
Qed.

(** X5. The language clause of a description is empty exactly when none of
    the owner's repositories lists a language; the description then ends
    with the clause's label. *)
Theorem empty_language_clause (group : list repo) :
  (top_langs_str group = "" <-> concat (map languages group) = []) /\
  (concat (map languages group) = [] ->
   exists front, create_description group = front +:+ "Основные языки: ").
Proof.
  assert (Hiff : top_langs_str group = "" <-> concat (map languages group) = []).
  { unfold top_langs_str, top_languages. split.
    - intros Hs. destruct (concat (map languages group)) as [|e es] eqn:E;
        [reflexivity|]. exfalso.
      assert (Hk : map fst (collect_languages group) <> []).
      { rewrite collect_languages_flat, fold_step_fst, E. discriminate. }
      destruct (sorted_desc (collect_languages group)) as [|x s] eqn:Es.
      + apply Hk. pose proof (sorted_desc_perm (collect_languages group)) as Hp.
        rewrite Es in Hp. apply Permutation_length in Hp.
        destruct (collect_languages group); [reflexivity | discriminate Hp].
      + simpl in Hs. revert Hs. apply concat_nonempty, render_language_nonempty.
    - intros E. rewrite collect_languages_flat, E. reflexivity. }
  split; [exact Hiff|].
  intros E. unfold create_description. rewrite (proj2 Hiff E).
  exists ("passage: Владелец " +:+ pretty (length group) +:+ " репозиториев, "
          +:+ "всего " +:+ pretty (sum_column stars group) +:+ " звезд, "
          +:+ pretty (sum_column forks group) +:+ " форков, "
          +:+ pretty (sum_column watchers group) +:+ " наблюдателей, "
          +:+ pretty (sum_column defaultBranchCommitCount group)
          +:+ " коммитов. ").
  rewrite !string_app_assoc, string_app_nil_r. reflexivity.
Qed.

Lemma create_user_description_rows_witness :
  (1 <= length (owned (create_hash "bob") two_owners))%nat /\
  create_description (owned (create_hash "bob") two_owners)
  = create_description (owned (create_hash "bob") two_owners) /\
  exists rest,
    create_description (owned (create_hash "bob") two_owners)
    = "passage: Владелец "
      +:+ pretty (length (owned (create_hash "bob") two_owners)) +:+ rest.
Proof.
  apply (proj2 (proj2 (proj2 (create_user_description_rows two_owners)))
               (create_hash "bob")).
  unfold create_user_description. apply list_elem_of_fmap.
  exists (create_hash "bob"). split; [reflexivity|].
  rewrite merge_sort_Permutation, elem_of_remove_dups.
  apply (list_elem_of_fmap_2 owner_hash two_owners (mk_repo "bob" "bob/r" 5)).
  unfold two_owners. right. left.
Defined.

Lemma empty_language_clause_witness :
  exists front,
    create_description [mk_repo "bob" "bob/r" 5] = front +:+ "Основные языки: ".
Proof.
  apply (proj2 (empty_language_clause [mk_repo "bob" "bob/r" 5])).
  reflexivity.
Defined.

(** *** [create_detailed_repo_history] and the topics of [load_data] *)

(** A value of a nested column, as [json.load] and [pd.DataFrame] leave it;
    [PNaN] is the float that pandas puts where a record has no value.  The
    fields of a dict have distinct keys. *)
#[local] Set Warnings "-register-all".
Inductive pyval :=
| PStr (s : string)
| PInt (z : Z)
| PNone
| PNaN
| PList (items : list pyval)
| PDict (fields : list (string * pyval)).
#[local] Set Warnings "register-all".

(** [load_data]: [[{"name": t, "stars": 0} for t in x] if isinstance(x, list) else x] *)
Definition wrap_topic (t : pyval) : pyval :=
  PDict [("name", t); ("stars", PInt 0)].

Definition load_topics (x : pyval) : pyval :=
  match x with
  | PList ts => PList (map wrap_topic ts)
  | _ => x
  end.

(** A row with the columns the detailed view reads besides those of
    [repo]. *)
Record repo_text := RepoText {
  base : repo;
  description : option string;
  primaryLanguage : option string;
  topics : pyval;
  createdAt : option Z }.

(** [if v:] *)
Definition truthy (v : pyval) : bool :=
  match v with
  | PStr s => negb (String.eqb s "")
  | PInt z => negb (Z.eqb z 0)
  | PNone => false
  | PNaN => true
  | PList l => match l with [] => false | _ => true end
  | PDict d => match d with [] => false | _ => true end
  end.

(** [d[k]] when [k in d]. *)
Definition dict_item (d : list (string * pyval)) (k : string) : option pyval :=
  snd <$> List.find (fun kv => String.eqb (fst kv) k) d.

Section DetailedHistory.

(** [str] of a list or a dict, and of a timestamp. *)
Variable repr : pyval -> string.
Variable render_ts : Z -> string.

Definition py_str (v : pyval) : string :=
  match v with
  | PStr s => s
  | PInt z => pretty z
  | PNone => "None"
  | PNaN => "nan"
  | _ => repr v
  end.

(** What the loop over the topics appends for one element, if anything:
    the inner name as it is for a nested name, [str] of the name
    otherwise, nothing for an element that is not a dict with a name. *)
Definition topic_name (topic : pyval) : option pyval :=
  match topic with
  | PDict d =>
    match dict_item d "name" with
    | Some (PDict inner) =>
      match dict_item inner "name" with
      | Some v => Some v
      | None => Some (PStr (py_str (PDict inner)))
      end
    | Some v => Some (PStr (py_str v))
    | None => None
    end
  | _ => None
  end.

(** [for topic in row['topics']]: the elements of a list; the characters of
    a string and the keys of a dict are strings, for which the loop does
    nothing; a number cannot be iterated ([None]: [TypeError]). *)
Definition iterate (v : pyval) : option (list pyval) :=
  match v with
  | PList l => Some l
  | PStr _ | PDict _ => Some []
  | _ => None
  end.

(** [', '.join(topics_list)]: every item must be a [str]. *)
Fixpoint as_strings (l : list pyval) : option (list string) :=
  match l with
  | [] => Some []
  | PStr s :: rest => cons s <$> as_strings rest
  | _ => None
  end.

(** The topics part of a description: [Some []] when there is none. *)
Definition topics_part (v : pyval) : option (list string) :=
  if truthy v then
    match iterate v with
    | None => None
    | Some elements =>
      let topics_list := omap topic_name elements in
      match topics_list with
      | [] => Some []
      | _ => match as_strings topics_list with
             | None => None
             | Some names => Some ["Темы: " +:+ String.concat ", " names]
             end
      end
    end
  else Some [].

Definition optional_part (label : string) (v : option string) : list string :=
  match v with
  | Some s => [label +:+ s]
  | None => []
  end.

Definition languages_part (langs : list (string * Z)) : list string :=
  match langs with
  | [] => []
  | _ => ["Используемые языки: "
          +:+ String.concat ", " (map render_language langs)]
  end.

(** [create_repo_description(row)]; [None] when it raises. *)
Definition create_repo_description (row : repo_text) : option string :=
  match topics_part (topics row) with
  | None => None
  | Some topic_parts =>
    Some (String.concat " ; "
            (optional_part "Описание: " (description row)
             ++ optional_part "Основной язык: " (primaryLanguage row)
             ++ languages_part (languages (base row))
             ++ topic_parts
             ++ optional_part "Создан: " (render_ts <$> createdAt row)
             ++ optional_part "Последнее обновление: "
                              (render_ts <$> pushedAt (base row))))
  end.

(** [df.apply(create_repo_description, axis=1)] *)
Fixpoint detailed_views (df : list repo_text) : option (list (repo_text * string)) :=
  match df with
  | [] => Some []
  | row :: rest =>
    match create_repo_description row with
    | None => None
    | Some view => cons (row, view) <$> detailed_views rest
    end
  end.

Definition text_owner (row : repo_text) : string := owner_hash (base row).

(** The rows are (owner id, text, primary languages). *)
Definition create_detailed_repo_history (df : list repo_text)
  : option (list (string * (string * list (option string)))) :=
  match detailed_views df with
  | None => None
  | Some viewed =>
    Some (map (fun k =>
                 let group := filter (fun rv => text_owner (fst rv) = k) viewed in
                 (k, ("query: " +:+ String.concat " ; " (map snd group),
                      map (fun rv => primaryLanguage (fst rv)) group)))
              (merge_sort str_le (remove_dups (map text_owner df))))
  end.

End DetailedHistory.

Section DetailedHistoryFacts.

Variable repr : pyval -> string.
Variable render_ts : Z -> string.

Lemma app_label_nonempty (c : ascii) (label s : string) :
  String c label +:+ s <> "".
Proof. discriminate. Qed.

Lemma optional_part_nonempty label v :
  label <> "" -> Forall (fun s => s <> "") (optional_part label v).
Proof.
  intros Hl. destruct v as [s|]; constructor; [|constructor].
  destruct label; [congruence | discriminate].
Qed.

Lemma languages_part_nonempty langs :
  Forall (fun s => s <> "") (languages_part langs).
Proof. destruct langs; constructor; [discriminate | constructor]. Qed.

Lemma topics_part_nonempty v parts :
  topics_part repr v = Some parts -> Forall (fun s => s <> "") parts.
Proof.
  unfold topics_part. intros Hp.
  destruct (truthy v); [|injection Hp as <-; constructor].
  destruct (iterate v) as [elements|]; [|discriminate Hp].
  destruct (omap (topic_name repr) elements); [injection Hp as <-; constructor|].
  destruct (as_strings (p :: l)); [|discriminate Hp].
  injection Hp as <-. constructor; [discriminate | constructor].
Qed.

Lemma concat_empty_inv sep (l : list string) :
  Forall (fun s => s <> "") l -> String.concat sep l = "" -> l = [].
Proof.
  intros Hl Hc. destruct l as [|x l]; [reflexivity|]. exfalso.
  revert Hc. apply concat_nonempty. now inversion Hl.
Qed.

(** X6. The text of a repository is empty exactly when the row has no
    description, no primary language, no languages, no topic that yields a
    name and neither of the two dates: every part that is present leaves a
    labelled, non-empty piece. *)
Theorem repo_description_empty_iff (row : repo_text) :
  create_repo_description repr render_ts row = Some "" <->
  description row = None /\ primaryLanguage row = None /\
  languages (base row) = [] /\ topics_part repr (topics row) = Some [] /\
  createdAt row = None /\ pushedAt (base row) = None.
Proof.
  unfold create_repo_description. split.
  - destruct (topics_part repr (topics row)) as [tp|] eqn:Et; [|discriminate].
    intros [= Hc]. apply concat_empty_inv in Hc.
    + destruct (description row); [discriminate Hc|].
      destruct (primaryLanguage row); [discriminate Hc|].
      destruct (languages (base row)); [|discriminate Hc].
      destruct tp; [|discriminate Hc].
      destruct (createdAt row); [discriminate Hc|].
      destruct (pushedAt (base row)); [discriminate Hc|].
      repeat split.
    + repeat (apply Forall_app; split);
        try (apply optional_part_nonempty; discriminate).
      * apply languages_part_nonempty.
      * eapply topics_part_nonempty, Et.
  - intros (-> & -> & -> & -> & -> & ->). reflexivity.
Qed.

(** The name that the loop finds in a topic that [load_data] has wrapped. *)
Definition loaded_name (t : pyval) : pyval :=
  match t with
  | PDict d =>
    match dict_item d "name" with
    | Some v => v
    | None => PStr (repr t)
    end
  | _ => PStr (py_str repr t)
  end.

Lemma topic_name_wrap t : topic_name repr (wrap_topic t) = Some (loaded_name t).
Proof.
  unfold wrap_topic, topic_name, loaded_name.
  change (dict_item [("name", t); ("stars", PInt 0)] "name") with (Some t).
  destruct t; try reflexivity.
  destruct (dict_item fields "name"); reflexivity.
Qed.

Lemma omap_topic_name_wrap ts :
  omap (topic_name repr) (map wrap_topic ts) = map loaded_name ts.
Proof.
  induction ts as [|t ts IH]; [reflexivity|].
  cbn [map omap list_omap]. rewrite topic_name_wrap.
  f_equal. exact IH.
Qed.

Lemma topics_part_loaded t ts :
  topics_part repr (load_topics (PList (t :: ts)))
  = match as_strings (map loaded_name (t :: ts)) with
    | None => None
    | Some names => Some ["Темы: " +:+ String.concat ", " names]
    end.
Proof.
  unfold topics_part, load_topics.
  replace (truthy (PList (map wrap_topic (t :: ts)))) with true by reflexivity.
  cbn [iterate]. rewrite omap_topic_name_wrap. reflexivity.
Qed.

(** A topic of the file that carries a name which is a string: the name
    itself or a dict with it. *)
Definition named_topic (t : pyval) (name : string) : Prop :=
  t = PStr name \/ exists d, t = PDict d /\ dict_item d "name" = Some (PStr name).

Lemma as_strings_named ts names :
  Forall2 named_topic ts names -> as_strings (map loaded_name ts) = Some names.
Proof.
  induction 1 as [|t name ts names Ht _ IH]; [reflexivity|].
  cbn [map as_strings].
  assert (Hn : loaded_name t = PStr name).
  { destruct Ht as [->|[d [-> Hd]]]; [reflexivity|].
    unfold loaded_name. now rewrite Hd. }
  rewrite Hn, IH. reflexivity.
Qed.

(** X7. Topics survive the wrapping of [load_data]: whether the file lists
    a topic as a plain string or as a dict with a string name, the
    description built from the loaded column shows exactly the names, in
    order and separated by commas; an empty list gives no topics part. *)
Theorem loaded_topics_render (ts : list pyval) (names : list string) :
  Forall2 named_topic ts names ->
  topics_part repr (load_topics (PList ts))
  = Some (match names with
          | [] => []
          | _ => ["Темы: " +:+ String.concat ", " names]
          end).
Proof.
  intros Hn. destruct Hn as [|t name ts names Ht Hts]; [reflexivity|].
  rewrite topics_part_loaded.
  rewrite (as_strings_named (t :: ts) (name :: names)); [reflexivity|].
  now constructor.
Qed.

Definition is_str (v : pyval) : bool :=
  match v with PStr _ => true | _ => false end.

Lemma as_strings_not_str l v :
  v ∈ l -> is_str v = false -> as_strings l = None.
Proof.
  induction 1 as [v l|v w l _ IH]; intros Hv.
  - destruct v; try reflexivity. discriminate Hv.
  - destruct w; try reflexivity. cbn [as_strings]. now rewrite IH.
Qed.

Definition is_dict (v : pyval) : bool :=
  match v with PDict _ => true | _ => false end.

(** X8. A topic dict whose name is not a string (a number, say) makes the
    description builder raise once [load_data] has wrapped the topics: the
    inner name is appended as it is and [join] rejects it.  The same topic
    in a column that was not wrapped is rendered through [str]. *)
Theorem nested_topic_name_not_str (ts : list pyval) d v :
  PDict d ∈ ts -> dict_item d "name" = Some v -> is_str v = false ->
  topics_part repr (load_topics (PList ts)) = None /\
  (is_dict v = false ->
   topics_part repr (PList [PDict d]) = Some ["Темы: " +:+ py_str repr v]).
Proof.
  intros Hin Hd Hv. split.
  - destruct ts as [|t ts]; [inversion Hin|].
    rewrite topics_part_loaded.
    rewrite (as_strings_not_str _ v); [reflexivity| |exact Hv].
    apply list_elem_of_fmap. exists (PDict d). split; [|exact Hin].
    unfold loaded_name. now rewrite Hd.
  - intros Hdict. unfold topics_part.
    cbn [truthy iterate omap list_omap topic_name]. rewrite Hd.
    destruct v; try discriminate Hdict; try discriminate Hv; reflexivity.
Qed.





End DetailedHistoryFacts.

Definition mixed_topics : list pyval :=
  [PStr "ml"; PDict [("name", PStr "nlp"); ("stars", PInt 3)]].

Example first_repo_description :
  create_repo_description (fun _ => "") pretty
    (RepoText (mk_repo "alice" "alice/r1" 1) (Some "A tool") (Some "Go")
              (PList [wrap_topic (PStr "cli")]) (Some 0))
  = Some "Описание: A tool ; Основной язык: Go ; Темы: cli ; Создан: 0 ; Последнее обновление: 1".
Proof. reflexivity. Qed.

Lemma loaded_topics_render_witness :
  topics_part (fun _ => "") (load_topics (PList mixed_topics))
  = Some ["Темы: ml, nlp"].
Proof.
  apply (loaded_topics_render (fun _ => "") mixed_topics ["ml"; "nlp"]).
  constructor; [left; reflexivity|].
  constructor; [|constructor].
  right. eexists. split; reflexivity.
Defined.

Lemma nested_topic_name_not_str_witness :
  topics_part (fun _ => "") (load_topics (PList [PDict [("name", PInt 7)]])) = None /\
  (is_dict (PInt 7) = false ->
   topics_part (fun _ => "") (PList [PDict [("name", PInt 7)]])
   = Some ["Темы: " +:+ py_str (fun _ => "") (PInt 7)]).
Proof.
  apply (nested_topic_name_not_str (fun _ => "") _ [("name", PInt 7)] (PInt 7)).
  - left.
  - reflexivity.
  - reflexivity.
Defined.

Definition detailed_example : list repo_text :=
  [ RepoText (mk_repo "alice" "alice/r1" 1) (Some "A tool") (Some "Go")
             (PList [wrap_topic (PStr "cli")]) (Some 0);
    RepoText (mk_repo "bob" "bob/r" 5) None None PNone None;
    RepoText (mk_repo "alice" "alice/r2" 3) None None (PList []) None ].


(** *** The three tables of [main] together *)

Global Instance str_le_trans : Transitive str_le.
Proof.
  intros a b c Hab Hbc. unfold str_le in *.
  apply Is_true_true. apply Is_true_true in Hab, Hbc.
  exact (transitivity (R := String.le) Hab Hbc).
Qed.

Lemma history_keys (sort_values : list repo -> list repo) (df : list repo) :
  map fst (create_repo_history_sorted sort_values df)
  = filter (fun k => (1 < length (owned k (sort_values df)))%nat)
           (merge_sort str_le (remove_dups (map owner_hash (sort_values df)))).
Proof.
  unfold create_repo_history_sorted, groupby_owner_hash. cbv zeta.
  induction (merge_sort str_le (remove_dups (map owner_hash (sort_values df))))
    as [|k ks IH]; [reflexivity|].
  cbn [map]. rewrite !filter_cons. cbn [snd]. rewrite length_map.
  fold (owned k (sort_values df)).
  destruct (decide (1 < length (owned k (sort_values df)))%nat);
    cbn [map fst]; now rewrite IH.
Qed.

(** X25. The tables that [main] writes agree on their keys: the detailed
    history and the user descriptions have the same owner ids in the same
    ascending order, and the id-history lists, also in ascending order, a
    part of these ids, so each of its rows finds its owner in the other
    two tables. *)
Theorem tables_share_owner_ids (repr : pyval -> string) (render_ts : Z -> string)
    (sort_values : list repo -> list repo) (df : list repo_text)
    (out : list (string * (string * list (option string)))) :
  sort_values (map base df) ≡ₚ map base df ->
  create_detailed_repo_history repr render_ts df = Some out ->
  let history := create_repo_history_sorted sort_values (map base df) in
  map fst out = map fst (create_user_description (map base df)) /\
  Sorted str_le (map fst history) /\
  (forall h, h ∈ map fst history -> h ∈ map fst out).
Proof.
  intros Hperm Hout. cbv zeta.
  assert (Hkeys : map fst out
                  = merge_sort str_le (remove_dups (map owner_hash (map base df)))).
  { unfold create_detailed_repo_history in Hout.
    destruct (detailed_views repr render_ts df); [|discriminate Hout].
    injection Hout as <-. rewrite map_map. cbn [fst]. rewrite map_id.
    rewrite map_map. reflexivity. }
  split; [|split].
  - rewrite Hkeys. symmetry. unfold create_user_description.
    etransitivity; [apply map_map|]. cbn [fst]. apply map_id.
  - rewrite history_keys. apply StronglySorted_Sorted, StronglySorted_filter.
    apply Sorted_StronglySorted; [apply _|]. apply Sorted_merge_sort, _.
  - intros h Hin. rewrite history_keys in Hin.
    apply list_elem_of_filter in Hin as [_ Hin].
    rewrite Hkeys. rewrite merge_sort_Permutation, elem_of_remove_dups in Hin |- *.
    now rewrite <- Hperm.
Qed.

Lemma tables_share_owner_ids_witness :
  map fst (default [] (create_detailed_repo_history (fun _ => "") pretty
                                                    detailed_example))
  = map fst (create_user_description (map base detailed_example)).
Proof.
  apply (tables_share_owner_ids (fun _ => "") pretty sort_by_pushedAt
           detailed_example).
  - apply merge_sort_Permutation.
  - vm_compute. reflexivity.
Defined.

End SoftwareSocdem.

(* ===================================================================== *)
(** ** trainers/trainer.py                                                 *)
(* ===================================================================== *)

Module Trainer.

Local Open Scope Q_scope.

(** A metrics dict: metric name to value. *)
Abbreviation metrics := (gmap string Q).

(** Exceptions, all of them subclasses of Python's [Exception] (so all of
    them are caught by [except Exception]). [Failure] stands for whatever
    a collaborator raises: a missing file, a failing index service, ... *)
Inductive exn :=
| NameError (name : string)
| UnboundLocalError (name : string)
| AttributeError (attr : string)
| KeyError (key : string)
| IndexError
| ValueError (msg : string)
| TypeError (msg : string)
| ZeroDivisionError
| Failure (msg : string).

Inductive res (A : Type) : Type :=
| Ok (a : A)
| Raise (e : exn).
Arguments Ok {A} a.
Arguments Raise {A} e.

(** *** The configuration

    [config] is a dict of dicts; every section and every option may be
    absent, and [d[k]] on an absent key raises [KeyError]. *)
Record training_cfg := TrainingCfg {
  lambda_rec : option Q;
  patience : option Z;
  checkpoint_dir : option string }.

Record inference_cfg := InferenceCfg {
  index_path : option string;
  ids_path : option string;
  embeddings_path : option string;
  top_k : option Z;
  model_path : option string }.

Record cfg := Cfg {
  training : option training_cfg;
  inference : option inference_cfg;
  evaluation_ks : option (list Z) }.

(** [d[k]] *)
Definition item {A} (k : string) (o : option A) : res A :=
  match o with
  | Some a => Ok a
  | None => Raise (KeyError k)
  end.

(** [index_config['inference']['model_path'] = model_path] *)
Definition set_model_path (inf : inference_cfg) (p : string) : inference_cfg :=
  InferenceCfg (index_path inf) (ids_path inf) (embeddings_path inf)
               (top_k inf) (Some p).

(** *** Tables, embeddings, batches *)

Inductive cell := CInt (z : Z) | CStr (s : string).

Global Instance cell_eq_dec : EqDecision cell.
Proof. solve_decision. Defined.

Global Instance cell_countable : Countable cell.
Proof.
  refine (inj_countable'
            (fun c => match c with CInt z => inl z | CStr s => inr s end)
            (fun x => match x with inl z => CInt z | inr s => CStr s end) _).
  now intros [].
Defined.

(** A [DataFrame] with the default index: column name to column. *)
Abbreviation dataframe := (gmap string (list cell)).

Definition vec := list Q.

(** Demographic centroids: feature, then group, to mean embedding. *)
Abbreviation centroids := (gmap string (gmap cell vec)).

(** What the trainer prints and which calls it makes to its collaborators,
    in order. *)
Inductive event :=
| Print (line : string)
| PrintError (prefix : string) (e : exn)
| PrintMetrics (m : metrics)
| Call_makedirs (path : string)
| Call_save_pretrained (path : string)
| Call_indexer (config : cfg)
| Call_save_checkpoint (epoch : nat) (m : option metrics).

(** *** The training loop

    The attributes of [self] that [train] reads and writes. *)
Inductive efloat := NegInf | Fin (q : Q).

Record trainer := Trainer {
  best_metric : efloat;
  best_epoch : nat;
  self_patience : Z;
  no_improvement : Z }.

(** [__init__]: [patience = config.get('training', {}).get('patience', 5)] *)
Definition init (config : cfg) : trainer :=
  Trainer NegInf 0
          (match training config with
           | Some tr => match patience tr with Some p => p | None => 5%Z end
           | None => 5%Z
           end)
          0.

(** [current_metric > self.best_metric] *)
Definition exceeds (current : Q) (best : efloat) : bool :=
  match best with
  | NegInf => true
  | Fin b => negb (Qle_bool current b)
  end.

(** How one pass through the loop body ends. *)
Inductive flow := Next | Break | Raised (e : exn).

Section TrainLoop.

(** [train] calls [self.train_epoch()], [self.validate()] and
    [self._save_checkpoint(...)]; none of them touches the attributes
    above, so each is a computation on the rest of the world [W]. The loop
    is written for any three such methods. Besides the final attributes and
    world it yields its journal: what the loop itself prints, and its calls
    of [_save_checkpoint]. *)
Context {W : Type}.
Variable train_epoch : W -> res metrics * W.
Variable validate : W -> res (option metrics) * W.
Variable save_checkpoint : nat -> option metrics -> W -> res unit * W.

(** Lines 47-61: [if val_metrics: ...]. [None] and the empty dict are
    falsy. *)
Definition after_validation (epoch : nat) (val_metrics : option metrics)
    (s : trainer) (w : W) : flow * trainer * W * list event :=
  match val_metrics with
  | None => (Next, s, w, [])
  | Some m =>
    if decide (m = ∅) then (Next, s, w, []) else
    let current_metric := default 0 (m !! "contextual_ndcg") in
    let '(r, s1, w1, j1) :=
      if exceeds current_metric (best_metric s) then
        let s1 := Trainer (Fin current_metric) epoch (self_patience s) 0 in
        let '(r, w1) := save_checkpoint epoch (Some m) w in
        (r, s1, w1, [Call_save_checkpoint epoch (Some m)])
      else
        (Ok tt,
         Trainer (best_metric s) (best_epoch s) (self_patience s)
                 (no_improvement s + 1),
         w, []) in
    match r with
    | Raise e => (Raised e, s1, w1, j1)
    | Ok _ =>
      if (self_patience s1 <=? no_improvement s1)%Z then
        (Break, s1, w1,
         j1 ++ [Print ("Early stopping triggered. No improvement for "
                       +:+ pretty (self_patience s1) +:+ " epochs.")])
      else (Next, s1, w1, j1)
    end
  end.

(** Lines 36-46 followed by the above. *)
Definition epoch_body (epochs epoch : nat) (s : trainer) (w : W)
  : flow * trainer * W * list event :=
  let j0 := [Print ("Epoch " +:+ pretty (epoch + 1)%nat +:+ "/" +:+ pretty epochs)] in
  match train_epoch w with
  | (Raise e, w1) => (Raised e, s, w1, j0)
  | (Ok train_metrics, w1) =>
    let '(r, w2, j1) :=
      if Nat.eqb epoch 0 then
        let '(r, w2) := save_checkpoint epoch None w1 in
        (r, w2, j0 ++ [Call_save_checkpoint epoch None])
      else (Ok tt, w1, j0) in
    match r with
    | Raise e => (Raised e, s, w2, j1)
    | Ok _ =>
      let j2 := j1 ++ [Print "Training metrics:"; PrintMetrics train_metrics] in
      match validate w2 with
      | (Raise e, w3) => (Raised e, s, w3, j2)
      | (Ok val_metrics, w3) =>
        let '(f, s', w4, j3) := after_validation epoch val_metrics s w3 in
        (f, s', w4, j2 ++ j3)
      end
    end
  end.

(** [for epoch in range(epochs): ...] with [break]. *)
Fixpoint train_loop (epochs : nat) (todo : list nat) (s : trainer) (w : W)
  : flow * trainer * W * list event :=
  match todo with
  | [] => (Next, s, w, [])
  | epoch :: rest =>
    match epoch_body epochs epoch s w with
    | (Next, s', w', j) =>
      let '(f, s'', w'', j') := train_loop epochs rest s' w' in
      (f, s'', w'', j ++ j')
    | stopped => stopped
    end
  end.

Definition train (epochs : nat) (s : trainer) (w : W)
  : flow * trainer * W * list event :=
  train_loop epochs (seq 0 epochs) s w.

End TrainLoop.

(** *** Collaborators

    The network, the losses, the optimizer, the index service, the file
    system and the metrics calculator are outside the trainer. [Ext] is
    their state (weights, files); reading it is a function of [Ext], a call
    that changes it returns the new [Ext]. *)
Class Collaborators := {
  Ext : Type;
  tokens : Type;
  faiss_index : Type;
  (* self.model(items_text_inputs, user_text_inputs, item_ids, user_ids) *)
  forward : Ext -> tokens -> tokens -> list Z -> list Z -> list vec * list vec;
  (* F.normalize(x, p=2, dim=1) *)
  normalize : list vec -> list vec;
  contrastive_loss_fn : list vec -> list vec -> list Q -> Q;
  recommendation_loss_fn : list (list Q) -> list Z -> Q;
  (* optimizer.zero_grad(); loss.backward(); optimizer.step() *)
  optimizer_step : tokens -> tokens -> list Z -> list Z -> Ext -> Ext;
  read_parquet : string -> Ext -> res dataframe;
  path_exists : string -> Ext -> bool;
  (* indexer.main(config=...), import included *)
  indexer_main : cfg -> Ext -> res unit * Ext;
  faiss_read_index : string -> Ext -> res faiss_index;
  (* index.search(query, top_k): distances and indices of the neighbours *)
  index_search : faiss_index -> vec -> Z -> list Q * list Z;
  np_load_ids : string -> Ext -> res (list string);
  np_load_embeddings : string -> Ext -> res (list vec);
  makedirs : string -> Ext -> res unit * Ext;
  save_pretrained : string -> Ext -> res unit * Ext;
  (* MetricsCalculator.demographic_alignment_score; the call on line 232
     is never reached, see [_process_user] *)
  demographic_alignment_score :
    gmap string cell -> list vec -> gmap string (gmap cell vec) -> metrics }.

Section WithCollaborators.

Context `{Collaborators}.

(** *** The trainer's world and the monad of its methods *)

(** A batch of a loader: [(items_text_inputs, user_text_inputs, item_ids,
    user_ids)]. *)
Record batch := Batch {
  items_text_inputs : tokens;
  user_text_inputs : tokens;
  item_ids : list Z;
  user_ids : list Z }.

(** [config], [train_loader] and [val_loader] are the attributes of [self]
    that the methods below use ([config] may be changed by a method).
    [__init__] sets no attribute [val_dataset]: [val_dataset] is [None]
    unless somebody outside the class has stored one (then it holds its
    [reverse_user_id_map]). [log] is what has been printed and called so
    far, [ext] the state of the collaborators. An exception leaves the
    world as it was when it was raised. *)
Record world := World {
  config : cfg;
  train_loader : list batch;
  val_loader : list batch;
  val_dataset : option (gmap Z Z);
  log : list event;
  ext : Ext }.

Definition with_config (c : cfg) (w : world) : world :=
  World c (train_loader w) (val_loader w) (val_dataset w) (log w) (ext w).
Definition with_log (l : list event) (w : world) : world :=
  World (config w) (train_loader w) (val_loader w) (val_dataset w) l (ext w).
Definition with_ext (x : Ext) (w : world) : world :=
  World (config w) (train_loader w) (val_loader w) (val_dataset w) (log w) x.

Definition M (A : Type) : Type := world -> res A * world.

Definition ret {A} (a : A) : M A := fun w => (Ok a, w).
Definition raise {A} (e : exn) : M A := fun w => (Raise e, w).
Definition bind {A B} (m : M A) (k : A -> M B) : M B :=
  fun w => match m w with
           | (Ok a, w') => k a w'
           | (Raise e, w') => (Raise e, w')
           end.

(** [try: body except Exception as e: handler(e)] *)
Definition try_except {A} (body : M A) (handler : exn -> M A) : M A :=
  fun w => match body w with
           | (Ok a, w') => (Ok a, w')
           | (Raise e, w') => handler e w'
           end.

Definition lift {A} (r : res A) : M A := fun w => (r, w).
Definition emit (e : event) : M unit :=
  fun w => (Ok tt, with_log (log w ++ [e]) w).
Definition get_world : M world := fun w => (Ok w, w).
Definition get_config : M cfg := fun w => (Ok (config w), w).
Definition set_config (c : cfg) : M unit := fun w => (Ok tt, with_config c w).
(** A read of the outside world, and a call that changes it. *)
Definition read {A} (f : Ext -> res A) : M A := fun w => (f (ext w), w).
Definition call {A} (f : Ext -> res A * Ext) : M A :=
  fun w => let '(r, x) := f (ext w) in (r, with_ext x w).

Notation "'let*' x ':=' m 'in' k" := (bind m (fun x => k))
  (at level 10, x name, m at level 100, k at level 200).
Notation "m ';;' k" := (bind m (fun _ => k))
  (at level 100, k at level 200, right associativity).

(** [os.path.join(a, b)] on POSIX. *)
Definition ends_with_slash (a : string) : bool :=
  match rev (list_ascii_of_string a) with
  | c :: _ => Ascii.eqb c "/"
  | [] => false
  end.

Definition os_path_join (a b : string) : string :=
  if String.prefix "/" b then b
  else if String.eqb a "" || ends_with_slash a then a +:+ b
  else a +:+ "/" +:+ b.

(** *** [_save_checkpoint] *)

(** [os.path.join(checkpoint_dir, f'model_epoch_{epoch}')] *)
Definition checkpoint_path (checkpoint_dir : string) (epoch : nat) : string :=
  os_path_join checkpoint_dir ("model_epoch_" +:+ pretty epoch).

(** [index_config = self.config.copy()] copies the outer dict only: the
    ['inference'] section is shared, so storing ['model_path'] in
    [index_config] stores it in [self.config] too. *)
Definition _save_checkpoint (epoch : nat) (metrics : option metrics) : M unit :=
  let* c := get_config in
  let* tr := lift (item "training" (training c)) in
  let* checkpoint_dir := lift (item "checkpoint_dir" (checkpoint_dir tr)) in
  emit (Call_makedirs checkpoint_dir);;
  call (makedirs checkpoint_dir);;
  let model_path := checkpoint_path checkpoint_dir epoch in
  emit (Call_save_pretrained model_path);;
  call (save_pretrained model_path);;
  let* inf := lift (item "inference" (inference c)) in
  let index_config :=
    Cfg (training c) (Some (set_model_path inf model_path)) (evaluation_ks c) in
  set_config index_config;;
  try_except
    (emit (Call_indexer index_config);;
     call (indexer_main index_config);;
     emit (Print "FAISS index updated successfully"))
    (fun e => emit (PrintError "Error updating index: " e)).

(** *** Arithmetic and array helpers *)

(** [a / n] for a length [n]: division by zero raises. Results are kept in
    lowest terms. *)
Definition pydiv (a : Q) (n : nat) : res Q :=
  match n with
  | O => Raise ZeroDivisionError
  | S _ => Ok (Qred (a / inject_Z (Z.of_nat n)))
  end.

Definition qadd (a b : Q) : Q := Qred (a + b).

(** [arr[i]] on a numpy array or a tensor: a negative index counts from
    the end, an index out of range raises. *)
Definition np_item {A} (arr : list A) (i : Z) : res A :=
  let n := Z.of_nat (length arr) in
  let j := (if i <? 0 then i + n else i)%Z in
  if ((j <? 0) || (n <=? j))%Z then Raise IndexError
  else match arr !! Z.to_nat j with
       | Some a => Ok a
       | None => Raise IndexError
       end.

(** [arr[indices]] *)
Fixpoint np_take {A} (arr : list A) (indices : list Z) : res (list A) :=
  match indices with
  | [] => Ok []
  | i :: rest =>
    match np_item arr i with
    | Raise e => Raise e
    | Ok a => match np_take arr rest with
              | Raise e => Raise e
              | Ok l => Ok (a :: l)
              end
    end
  end.

(** [x.roll(shifts=1, dims=0)] *)
Definition roll1 {A} (x : list A) : list A :=
  match rev x with
  | [] => []
  | last :: front => last :: rev front
  end.

Definition dot (u v : vec) : Q :=
  fold_right Qplus 0 (zip_with Qmult u v).

(** [torch.matmul(a, b.T)] *)
Definition matmul_T (a b : list vec) : list (list Q) :=
  map (fun u => map (dot u) b) a.

(** [np.mean(vs, axis=0)] for a non-empty list of vectors. *)
Definition mean_axis0 (vs : list vec) : vec :=
  match vs with
  | [] => []
  | v :: rest =>
    map (fun x => Qred (x / inject_Z (Z.of_nat (length vs))))
        (fold_left (zip_with Qplus) rest v)
  end.

(** [df[col]] *)
Definition column (df : dataframe) (col : string) : res (list cell) :=
  item col (df !! col).

(** Number of rows of a table (all columns have the same length). *)
Definition n_rows (df : dataframe) : nat :=
  map_fold (fun _ c n => Nat.max (length c) n) O df.

(** The row [i] of a table as a dict. *)
Definition row_at (df : dataframe) (i : nat) : gmap string cell :=
  omap (fun c => c !! i) df.

(** [pd.unique]: distinct values in order of first appearance. *)
Fixpoint unique (l : list cell) : list cell :=
  match l with
  | [] => []
  | x :: rest => x :: filter (fun y => y <> x) (unique rest)
  end.

(** Position of the first occurrence. *)
Fixpoint index_of (x : cell) (l : list cell) : option nat :=
  match l with
  | [] => None
  | y :: rest => if decide (y = x) then Some O else S <$> index_of x rest
  end.

(** *** Losses and the training epoch *)

Definition compute_recommendation_loss (user_embeddings items_embeddings : list vec) : Q :=
  let logits := matmul_T user_embeddings items_embeddings in
  let labels := map Z.of_nat (seq 0 (length user_embeddings)) in
  recommendation_loss_fn logits labels.

Definition compute_contrastive_loss (items_embeddings user_embeddings : list vec) : Q :=
  let batch_size := length items_embeddings in
  let positive_labels := repeat 1 batch_size in
  let contrastive_goods_loss :=
    contrastive_loss_fn items_embeddings (roll1 items_embeddings) positive_labels in
  let contrastive_users_loss :=
    contrastive_loss_fn user_embeddings (roll1 user_embeddings) positive_labels in
  contrastive_goods_loss + contrastive_users_loss.

(** The forward pass with both normalisations. *)
Definition embed (x : Ext) (b : batch) : list vec * list vec :=
  let '(items_embeddings, user_embeddings) :=
    forward x (items_text_inputs b) (user_text_inputs b) (item_ids b) (user_ids b) in
  (normalize items_embeddings, normalize user_embeddings).

(** [self.config['training']['lambda_rec']] *)
Definition get_lambda_rec : M Q :=
  let* c := get_config in
  let* tr := lift (item "training" (training c)) in
  lift (item "lambda_rec" (lambda_rec tr)).

Definition training_step (b : batch) : M (Q * Q * Q) :=
  let* w := get_world in
  let '(items_embeddings, user_embeddings) := embed (ext w) b in
  let recommendation_loss := compute_recommendation_loss user_embeddings items_embeddings in
  let contrastive_loss := compute_contrastive_loss items_embeddings user_embeddings in
  let* lam := get_lambda_rec in
  let loss := contrastive_loss + lam * recommendation_loss in
  call (fun x => (Ok tt, optimizer_step (items_text_inputs b) (user_text_inputs b)
                                        (item_ids b) (user_ids b) x));;
  ret (loss, contrastive_loss, recommendation_loss).

Fixpoint train_batches (bs : list batch) (totals : Q * Q * Q) : M (Q * Q * Q) :=
  match bs with
  | [] => ret totals
  | b :: rest =>
    let* l := training_step b in
    let '(total_loss, total_contrastive_loss, total_recommendation_loss) := totals in
    let '(loss, c_loss, r_loss) := l in
    train_batches rest (qadd total_loss loss, qadd total_contrastive_loss c_loss,
                        qadd total_recommendation_loss r_loss)
  end.

Definition train_epoch : M metrics :=
  let* w := get_world in
  let* totals := train_batches (train_loader w) (0, 0, 0) in
  let '(total_loss, total_contrastive_loss, total_recommendation_loss) := totals in
  let n := length (train_loader w) in
  let* a := lift (pydiv total_loss n) in
  let* b := lift (pydiv total_contrastive_loss n) in
  let* c := lift (pydiv total_recommendation_loss n) in
  ret (<["loss" := a]> (<["contrastive_loss" := b]>
        (<["recommendation_loss" := c]> (∅ : metrics)))).

(** *** Demographic centroids (lines 116-143) *)

Definition demographic_features : list string := ["age_group"; "sex"; "region"].

(** The embeddings of the users of one group: for every [user_id] of the
    group that occurs in [textual_history['viewer_uid']], the row of
    [item_embeddings_array] at the position of its first occurrence, when
    there is such a row. *)
Fixpoint collect_group_embeddings (textual_history : dataframe)
    (item_embeddings_array : list vec) (group_users : list cell)
  : res (list vec) :=
  match group_users with
  | [] => Ok []
  | user_id :: rest =>
    match column textual_history "viewer_uid" with
    | Raise e => Raise e
    | Ok uids =>
      let found :=
        match index_of user_id uids with
        | Some user_idx => option_list (item_embeddings_array !! user_idx)
        | None => []
        end in
      match collect_group_embeddings textual_history item_embeddings_array rest with
      | Raise e => Raise e
      | Ok l => Ok (found ++ l)
      end
    end
  end.

Fixpoint group_centroids (demographic_data textual_history : dataframe)
    (item_embeddings_array : list vec) (feature_column : list cell)
    (groups : list cell) (acc : gmap cell vec) : res (gmap cell vec) :=
  match groups with
  | [] => Ok acc
  | group :: rest =>
    match column demographic_data "viewer_uid" with
    | Raise e => Raise e
    | Ok viewer_uid =>
      let group_users :=
        map snd (filter (fun p => fst p = group)
                        (zip feature_column viewer_uid)) in
      match collect_group_embeddings textual_history item_embeddings_array
                                     group_users with
      | Raise e => Raise e
      | Ok group_embeddings =>
        let acc' :=
          match group_embeddings with
          | [] => acc
          | _ => <[group := mean_axis0 group_embeddings]> acc
          end in
        group_centroids demographic_data textual_history item_embeddings_array
                        feature_column rest acc'
      end
    end
  end.

Fixpoint build_centroids (demographic_data textual_history : dataframe)
    (item_embeddings_array : list vec) (features : list string)
    (acc : centroids) : res centroids :=
  match features with
  | [] => Ok acc
  | feature :: rest =>
    match column demographic_data feature with
    | Raise e => Raise e
    | Ok feature_column =>
      match group_centroids demographic_data textual_history
              item_embeddings_array feature_column (unique feature_column) ∅ with
      | Raise e => Raise e
      | Ok groups =>
        build_centroids demographic_data textual_history item_embeddings_array
                        rest (<[feature := groups]> acc)
      end
    end
  end.

Definition warn_demographic (e : exn) : M unit :=
  emit (PrintError "Warning: Could not load demographic data: " e).

(** The [try] block of lines 115-146. Its result is the pair of the two
    local variables as they are after the block: [demographic_data], which
    is unbound ([None]) when [read_parquet] itself has failed, and
    [demographic_centroids], which is the Python [None] after any failure.
    The two handlers are the one [except] clause, entered before and after
    the assignment of [demographic_data]. *)
Definition load_demographics (textual_history : dataframe)
    (item_embeddings_array : list vec)
  : M (option dataframe * option centroids) :=
  try_except
    (let* demographic_data := read (read_parquet "./data/demographic_data.parquet") in
     try_except
       (let* cs := lift (build_centroids demographic_data textual_history
                           item_embeddings_array demographic_features ∅) in
        emit (Print "Loaded demographic data with features: ['age_group', 'sex', 'region']");;
        ret (Some demographic_data, Some cs))
       (fun e => warn_demographic e;; ret (Some demographic_data, None)))
    (fun e => warn_demographic e;; ret (None, None)).

(** *** [_process_user] *)

(** [df_videos_map.get(video_id, {}).get('category', 'Unknown')] *)
Definition category_of (df_videos_map : gmap string (gmap string cell))
    (video_id : string) : cell :=
  default (CStr "Unknown") (default ∅ (df_videos_map !! video_id) !! "category").

Fixpoint rec_categories_of (video_ids : list string)
    (df_videos_map : gmap string (gmap string cell)) (indices : list Z)
  : res (list cell) :=
  match indices with
  | [] => Ok []
  | idx :: rest =>
    match np_item video_ids idx with
    | Raise e => Raise e
    | Ok video_id =>
      match rec_categories_of video_ids df_videos_map rest with
      | Raise e => Raise e
      | Ok l => Ok (category_of df_videos_map video_id :: l)
      end
    end
  end.

(** [user_demo[feature] = demographic_data.loc[user_id.item(), feature]] for
    the three features, when [user_id] is a row label of the table. *)
Fixpoint user_demo_of (demographic_data : dataframe) (user_id : nat)
    (features : list string) (acc : gmap string cell) : res (gmap string cell) :=
  match features with
  | [] => Ok acc
  | feature :: rest =>
    match column demographic_data feature with
    | Raise e => Raise e
    | Ok col =>
      match col !! user_id with
      | None => Raise (KeyError feature)
      | Some v => user_demo_of demographic_data user_id rest (<[feature := v]> acc)
      end
    end
  end.

(** The names bound at the top level of the module [trainer]: its imports
    and the class. A name that a function uses without assigning it is
    looked up here (the builtins have none of the names used below). *)
Definition module_globals : list string :=
  ["sys"; "os"; "torch"; "F"; "tqdm"; "get_losses"; "MetricsCalculator";
   "pd"; "np"; "faiss"; "Trainer"].

Definition load_global (name : string) : res unit :=
  if decide (name ∈ module_globals) then Ok tt else Raise (NameError name).

(** [self.val_dataset] *)
Definition get_val_dataset : M (gmap Z Z) :=
  let* w := get_world in
  match val_dataset w with
  | Some d => ret d
  | None => raise (AttributeError "val_dataset")
  end.

(** [user_metrics] is a local variable of [_process_user] that only line
    237 assigns; lines 225-229 use [user_ids], [i] and
    [demographic_features], which are neither parameters nor assigned in
    the function, hence module-level names. The objects bound at module
    level are modules, a function and classes: subscripting one of them
    with another is a [TypeError], which is all that could follow a
    successful lookup. *)
Definition _process_user (user_emb target_emb : vec) (item_id user_id : Z)
    (index : faiss_index) (video_ids : list string)
    (df_videos_map : gmap string (gmap string cell))
    (item_embeddings : list vec) (top_k : Z)
    (demographic_data : option dataframe)
    (demographic_centroids : option centroids) : M metrics :=
  let '(distances, indices) := index_search index user_emb top_k in
  let* rec_embeddings := lift (np_take item_embeddings indices) in
  let rec_embeddings := normalize rec_embeddings in
  let* rec_categories := lift (rec_categories_of video_ids df_videos_map indices) in
  let* user_demo :=
    lift (match demographic_data with
          | Some d =>
            if ((0 <=? user_id) && (user_id <? Z.of_nat (n_rows d)))%Z
            then user_demo_of d (Z.to_nat user_id) demographic_features ∅
            else Ok ∅
          | None => Ok ∅
          end) in
  let target_id := pretty item_id in
  let target_category := category_of df_videos_map target_id in
  match demographic_centroids with
  | Some cs =>
    let* reverse_user_id_map := get_val_dataset in
    lift (load_global "user_ids");;
    lift (load_global "i");;
    raise (TypeError "object is not subscriptable")
  | None => raise (UnboundLocalError "user_metrics")
  end.

(** *** [_update_metrics], [_compile_metrics] *)

Definition _update_metrics (metrics_accum user_metrics : metrics) : metrics :=
  map_fold (fun metric value acc =>
              <[metric := qadd (default 0 (acc !! metric)) value]> acc)
           metrics_accum user_metrics.

Definition _compile_metrics (total_loss contrastive_loss recommendation_loss : Q)
    (metrics_accum : metrics) (num_users : nat) : M metrics :=
  let* w := get_world in
  let n := length (val_loader w) in
  let* a := lift (pydiv total_loss n) in
  let* b := lift (pydiv contrastive_loss n) in
  let* c := lift (pydiv recommendation_loss n) in
  let metrics_dict : metrics :=
    <["val_recommendation_loss" := c]>
      (<["val_contrastive_loss" := b]> (<["val_loss" := a]> ∅)) in
  let metrics_dict :=
    match num_users with
    | O => metrics_dict
    | S _ =>
      map_fold (fun metric total_value acc =>
                  <[metric := Qred (total_value / inject_Z (Z.of_nat num_users))]> acc)
               metrics_dict metrics_accum
    end in
  emit (Print "Validation Metrics:");;
  emit (PrintMetrics metrics_dict);;
  ret metrics_dict.

(** *** [validate] *)

(** [df_videos.set_index('clean_video_id').to_dict(orient='index')]. The
    map is only ever asked for [str] keys, so rows with another kind of id
    are left out. *)
Definition videos_map (df_videos : dataframe)
  : res (gmap string (gmap string cell)) :=
  match column df_videos "clean_video_id" with
  | Raise e => Raise e
  | Ok ids =>
    if decide (NoDup ids) then
      Ok (list_to_map
            (omap (fun p => match snd p with
                            | CStr s =>
                              Some (s, row_at (delete "clean_video_id" df_videos) (fst p))
                            | CInt _ => None
                            end)
                  (imap pair ids)))
    else Raise (ValueError "DataFrame index must be unique for orient='index'.")
  end.

(** One pass through the body of [for i in range(user_embeddings.size(0))]:
    the arguments of the call are evaluated from left to right, then
    [_process_user] runs. [demographic_data] is a local variable of
    [validate] and may be unbound. *)
Definition validate_user (b : batch) (items_embeddings user_embeddings : list vec)
    (index : faiss_index) (video_ids : list string)
    (df_videos_map : gmap string (gmap string cell))
    (item_embeddings_array : list vec) (top_k : Z)
    (demographic_data : option dataframe)
    (demographic_centroids : option centroids) (i : nat) : M metrics :=
  let* user_emb := lift (np_item user_embeddings (Z.of_nat i)) in
  let* target_emb := lift (np_item items_embeddings (Z.of_nat i)) in
  let* item_id := lift (np_item (item_ids b) (Z.of_nat i)) in
  let* user_id := lift (np_item (user_ids b) (Z.of_nat i)) in
  let* d := match demographic_data with
            | Some d => ret d
            | None => raise (UnboundLocalError "demographic_data")
            end in
  _process_user user_emb target_emb item_id user_id index video_ids df_videos_map
                item_embeddings_array top_k (Some d) demographic_centroids.

Fixpoint validate_users (process : nat -> M metrics) (users : list nat)
    (acc : metrics * nat) : M (metrics * nat) :=
  match users with
  | [] => ret acc
  | i :: rest =>
    let* user_metrics := process i in
    validate_users process rest (_update_metrics (fst acc) user_metrics, S (snd acc))
  end.

(** The loop over the validation batches; the state of the loop is
    [(total_loss, metrics_accum, num_users)]. *)
Fixpoint validate_batches (index : faiss_index) (video_ids : list string)
    (df_videos_map : gmap string (gmap string cell))
    (item_embeddings_array : list vec) (top_k : Z)
    (demographic_data : option dataframe)
    (demographic_centroids : option centroids)
    (bs : list batch) (acc : Q * metrics * nat) : M (Q * metrics * nat) :=
  match bs with
  | [] => ret acc
  | b :: rest =>
    let '(total_loss, metrics_accum, num_users) := acc in
    let* w := get_world in
    let '(items_embeddings, user_embeddings) := embed (ext w) b in
    let rec_loss := compute_recommendation_loss user_embeddings items_embeddings in
    let con_loss := compute_contrastive_loss items_embeddings user_embeddings in
    let* lam := get_lambda_rec in
    let total_loss := qadd total_loss (con_loss + lam * rec_loss) in
    let* r := validate_users
                (validate_user b items_embeddings user_embeddings index video_ids
                               df_videos_map item_embeddings_array top_k
                               demographic_data demographic_centroids)
                (seq 0 (length user_embeddings)) (metrics_accum, num_users) in
    validate_batches index video_ids df_videos_map item_embeddings_array top_k
                     demographic_data demographic_centroids rest
                     (total_loss, fst r, snd r)
  end.

(** Lines 100-107: [true] when the index files are there or have just been
    created, [false] when their creation has failed (the [return None]). *)
Definition ensure_index (index_path ids_path embeddings_path : string) : M bool :=
  let* w := get_world in
  if forallb (fun p => path_exists p (ext w)) [index_path; ids_path; embeddings_path]
  then ret true
  else
    emit (Print "Index files not found, creating new index...");;
    try_except
      (let* c := get_config in
       emit (Call_indexer c);;
       call (indexer_main c);;
       ret true)
      (fun e => emit (PrintError "Error creating index: " e);; ret false).

Definition initial_accum : metrics :=
  <["semantic_precision@k" := 0]>
    (<["cross_category_relevance" := 0]> (<["contextual_ndcg" := 0]> ∅)).

Definition validate : M (option metrics) :=
  let total_loss := 0 in
  let total_contrastive_loss := 0 in
  let total_recommendation_loss := 0 in
  let* textual_history := read (read_parquet "./data/textual_history.parquet") in
  let* df_videos := read (read_parquet "./data/video_info.parquet") in
  let* df_videos_map := lift (videos_map df_videos) in
  let* c := get_config in
  let* inf := lift (item "inference" (inference c)) in
  let* index_path := lift (item "index_path" (index_path inf)) in
  let* ids_path := lift (item "ids_path" (ids_path inf)) in
  let* embeddings_path := lift (item "embeddings_path" (embeddings_path inf)) in
  let* have_index := ensure_index index_path ids_path embeddings_path in
  if negb have_index then ret None else
  let* index := read (faiss_read_index index_path) in
  let* video_ids := read (np_load_ids ids_path) in
  let* item_embeddings_array := read (np_load_embeddings embeddings_path) in
  let* demo := load_demographics textual_history item_embeddings_array in
  let '(demographic_data, demographic_centroids) := demo in
  let metrics_accum := initial_accum in
  let num_users := O in
  let* c := get_config in
  let* inf := lift (item "inference" (inference c)) in
  let top_k := default 10%Z (top_k inf) in
  let* w := get_world in
  let* r := validate_batches index video_ids df_videos_map item_embeddings_array
              top_k demographic_data demographic_centroids (val_loader w)
              (total_loss, metrics_accum, num_users) in
  let '(total_loss, metrics_accum, num_users) := r in
  let* m := _compile_metrics total_loss total_contrastive_loss
              total_recommendation_loss metrics_accum num_users in
  ret (Some m).

(** [Trainer.train] with the trainer's own methods. *)
Definition trainer_train (epochs : nat) (s : trainer) (w : world)
  : flow * trainer * world * list event :=
  train train_epoch validate _save_checkpoint epochs s w.

End WithCollaborators.

(** *** Test doubles for the loop

    The world is the number of validations done so far; [scripted_validate]
    reports the next value of a metric sequence as [contextual_ndcg], the
    other two methods do nothing and succeed. *)
Definition scripted_validate (ms : nat -> Q) : nat -> res (option metrics) * nat :=
  fun k => (Ok (Some {["contextual_ndcg" := ms k]}), S k).
Definition quiet_train_epoch : nat -> res metrics * nat := fun k => (Ok ∅, k).
Definition quiet_save : nat -> option metrics -> nat -> res unit * nat :=
  fun _ _ k => (Ok tt, k).

Definition patience_cfg (p : Z) : cfg :=
  Cfg (Some (TrainingCfg None (Some p) None)) None None.

(** *** Facts about the loop *)

Lemma exceeds_false_iff current b :
  exceeds current (Fin b) = false <-> current <= b.
Proof.
  simpl. rewrite negb_false_iff. apply Qle_bool_iff.
Qed.

Lemma singleton_metrics_nonempty (k : string) (q : Q) :
  ({[k := q]} : metrics) <> ∅.
Proof. apply insert_non_empty. Qed.

Section LoopFacts.

Context {W : Type}.
Variable train_epoch : W -> res metrics * W.
Variable validate : W -> res (option metrics) * W.
Variable save_checkpoint : nat -> option metrics -> W -> res unit * W.

Abbreviation after_validation' := (after_validation save_checkpoint).
Abbreviation epoch_body' := (epoch_body train_epoch validate save_checkpoint).

(** What [after_validation] does on a non-empty metrics dict. *)
Lemma after_validation_cases epoch (m : metrics) s (w : W) :
  m <> ∅ ->
  let current := default 0 (m !! "contextual_ndcg") in
  (exceeds current (best_metric s) = true /\
   let s1 := Trainer (Fin current) epoch (self_patience s) 0 in
   after_validation' epoch (Some m) s w =
   match save_checkpoint epoch (Some m) w with
   | (Raise e, w1) => (Raised e, s1, w1, [Call_save_checkpoint epoch (Some m)])
   | (Ok _, w1) =>
     if (self_patience s <=? 0)%Z
     then (Break, s1, w1,
           [Call_save_checkpoint epoch (Some m);
            Print ("Early stopping triggered. No improvement for "
                   +:+ pretty (self_patience s) +:+ " epochs.")])
     else (Next, s1, w1, [Call_save_checkpoint epoch (Some m)])
   end) \/
  (exceeds current (best_metric s) = false /\
   let s1 := Trainer (best_metric s) (best_epoch s) (self_patience s)
                     (no_improvement s + 1) in
   after_validation' epoch (Some m) s w =
   if (self_patience s <=? no_improvement s + 1)%Z
   then (Break, s1, w,
         [Print ("Early stopping triggered. No improvement for "
                 +:+ pretty (self_patience s) +:+ " epochs.")])
   else (Next, s1, w, [])).
Proof.
  intros Hm. simpl. unfold after_validation.
  destruct (decide (m = ∅)) as [?|_]; [contradiction|].
  destruct (exceeds _ _) eqn:E; [left | right]; (split; [reflexivity|]).
  - destruct (save_checkpoint epoch (Some m) w) as [[u|e] w1]; simpl;
      [destruct (self_patience s <=? 0)%Z|]; reflexivity.
  - simpl. destruct (self_patience s <=? no_improvement s + 1)%Z; reflexivity.
Qed.

End LoopFacts.

Arguments after_validation : simpl never.






(** Membership of an event in an explicit journal. *)
Ltac in_journal :=
  simpl in *;
  repeat match goal with
         | H : @elem_of event _ _ _ (@nil event) |- _ =>
           apply elem_of_nil in H; destruct H
         | H : @elem_of event _ _ _ (_ :: _) |- _ =>
           apply elem_of_cons in H as [H|H]
         | H : Call_save_checkpoint _ _ = Call_save_checkpoint _ _ |- _ =>
           injection H as -> ->
         | H : @eq event _ _ |- _ => discriminate H
         end.




(** *** Facts about the trainer's own methods *)

(** Unfold the monad. *)
Ltac run_monad :=
  cbv [bind lift raise ret read call emit get_world get_config set_config
       try_except get_val_dataset get_lambda_rec warn_demographic].

Section TrainerFacts.

Context `{Collaborators}.

Lemma load_global_user_ids : load_global "user_ids" = Raise (NameError "user_ids").
Proof. reflexivity. Qed.

(** Every run of [_process_user] ends in an exception, and leaves the
    world as it found it. *)
Lemma process_user_raises (user_emb target_emb : vec) (item_id user_id : Z)
    (index : faiss_index) (video_ids : list string)
    (df_videos_map : gmap string (gmap string cell))
    (item_embeddings : list vec) (top_k : Z)
    (demographic_data : option dataframe)
    (demographic_centroids : option centroids) (w : world) :
  exists e,
    _process_user user_emb target_emb item_id user_id index video_ids
                  df_videos_map item_embeddings top_k demographic_data
                  demographic_centroids w
    = (Raise e, w).
Proof.
  unfold _process_user.
  destruct (index_search index user_emb top_k) as [distances indices].
  run_monad.
  destruct (np_take item_embeddings indices) as [rec_embeddings|e];
    [|eexists; reflexivity].
  destruct (rec_categories_of video_ids df_videos_map indices)
    as [rec_categories|e]; [|eexists; reflexivity].
  match goal with
  | |- context [match ?d with Ok _ => _ | Raise _ => _ end] =>
    destruct d as [user_demo|e]; [|eexists; reflexivity]
  end.
  destruct demographic_centroids as [cs|]; [|eexists; reflexivity].
  destruct (val_dataset w) as [d|]; eexists; reflexivity.
Qed.

Lemma validate_user_raises (b : batch) (items_embeddings user_embeddings : list vec)
    (index : faiss_index) (video_ids : list string)
    (df_videos_map : gmap string (gmap string cell))
    (item_embeddings_array : list vec) (top_k : Z)
    (demographic_data : option dataframe)
    (demographic_centroids : option centroids) (i : nat) (w : world) :
  exists e,
    validate_user b items_embeddings user_embeddings index video_ids
                  df_videos_map item_embeddings_array top_k demographic_data
                  demographic_centroids i w
    = (Raise e, w).
Proof.
  unfold validate_user. run_monad.
  destruct (np_item user_embeddings (Z.of_nat i)) as [user_emb|e];
    [|eexists; reflexivity].
  destruct (np_item items_embeddings (Z.of_nat i)) as [target_emb|e];
    [|eexists; reflexivity].
  destruct (np_item (item_ids b) (Z.of_nat i)) as [item_id|e];
    [|eexists; reflexivity].
  destruct (np_item (user_ids b) (Z.of_nat i)) as [user_id|e];
    [|eexists; reflexivity].
  destruct demographic_data as [d|]; [|eexists; reflexivity].
  destruct (process_user_raises user_emb target_emb item_id user_id index
              video_ids df_videos_map item_embeddings_array top_k (Some d)
              demographic_centroids w) as [e He].
  exists e. rewrite He. reflexivity.
Qed.

(** A loop over users whose body always raises only ends normally when
    there is no user. *)
Lemma validate_users_ok (process : nat -> M metrics) (users : list nat)
    (acc r : metrics * nat) (w w' : world) :
  (forall i w0, exists e, process i w0 = (Raise e, w0)) ->
  validate_users process users acc w = (Ok r, w') ->
  users = [] /\ r = acc /\ w' = w.
Proof.
  intros Hp. destruct users as [|i rest]; simpl.
  - unfold ret. intros [= <- <-]. auto.
  - unfold bind. destruct (Hp i w) as [e ->]. discriminate.
Qed.

(** When the loop over the batches ends normally no user has been
    processed: the accumulated metrics and the number of users are the
    initial ones, every batch is empty, and the world is unchanged. *)
Lemma validate_batches_ok (index : faiss_index) (video_ids : list string)
    (df_videos_map : gmap string (gmap string cell))
    (item_embeddings_array : list vec) (top_k : Z)
    (demographic_data : option dataframe)
    (demographic_centroids : option centroids) (bs : list batch) :
  forall (acc r : Q * metrics * nat) (w w' : world),
    validate_batches index video_ids df_videos_map item_embeddings_array top_k
                     demographic_data demographic_centroids bs acc w
    = (Ok r, w') ->
    w' = w /\ snd (fst r) = snd (fst acc) /\ snd r = snd acc /\
    Forall (fun b => snd (embed (ext w) b) = []) bs.
Proof.
  induction bs as [|b bs IH]; intros [[total_loss metrics_accum] num_users] r w w';
    simpl.
  - unfold ret. intros [= <- <-]. auto.
  - run_monad. destruct (embed (ext w) b) as [items_embeddings user_embeddings] eqn:Eb.
    destruct (item "training" (training (config w))) as [tr|e]; [|discriminate].
    destruct (item "lambda_rec" (lambda_rec tr)) as [lam|e]; [|discriminate].
    match goal with
    | |- context [validate_users ?p ?u ?a w] =>
      destruct (validate_users p u a w) as [[r1|e] w1] eqn:Eu; [|discriminate]
    end.
    apply validate_users_ok in Eu as [Hu [-> ->]];
      [|intros i w0; apply validate_user_raises].
    intros Hrest. apply IH in Hrest as [-> [Hm [Hn Hall]]].
    simpl in Hm, Hn. repeat split; try assumption.
    constructor; [|exact Hall].
    rewrite Eb. simpl. destruct user_embeddings; [reflexivity | discriminate Hu].
Qed.

Lemma pydiv_zero (n : nat) (q : Q) : pydiv 0 n = Ok q -> q = 0.
Proof.
  destruct n as [|n]; simpl; [discriminate|]. intros [= <-]. reflexivity.
Qed.

(** Case analysis on the next step of a run that has ended normally. *)
Ltac step_in Hv :=
  match type of Hv with
  | context [match ?x with _ => _ end] => destruct x eqn:?; try discriminate Hv
  end.

(** How a normal return of [validate] with metrics comes about: no user
    has been processed, and the dict is the one [_compile_metrics] builds
    from the total loss and two zeros. *)
Lemma validate_returns_inv (w w' : world) (m : metrics) :
  validate w = (Ok (Some m), w') ->
  exists (total_loss : Q) (w2 : world),
    Forall (fun b => snd (embed (ext w2) b) = []) (val_loader w2) /\
    _compile_metrics total_loss 0 0 initial_accum 0 w2 = (Ok m, w').
Proof.
  unfold validate. run_monad. intros Hv. repeat step_in Hv.
  injection Hv as <- <-.
  match goal with
  | Hb : validate_batches _ _ _ _ _ _ _ _ _ _ = _ |- _ =>
    apply validate_batches_ok in Hb as [-> [Hm [Hn Hall]]]
  end.
  simpl in Hm, Hn. subst. eauto.
Qed.

(** C10. Whenever [validate] returns a metrics dict, its
    [val_contrastive_loss] and [val_recommendation_loss] are exactly 0: the
    two accumulators are still the initial 0 when they are divided by the
    number of batches. *)
Theorem validation_component_losses_zero (w w' : world) (m : metrics) :
  validate w = (Ok (Some m), w') ->
  m !! "val_contrastive_loss" = Some 0 /\
  m !! "val_recommendation_loss" = Some 0.
Proof.
  intros Hv. apply validate_returns_inv in Hv as [total_loss [w2 [_ Hc]]].
  unfold _compile_metrics in Hc. run_monad. revert Hc. run_monad. intros Hc.
  destruct (pydiv total_loss (length (val_loader w2))) as [a|e];
    [|discriminate Hc].
  destruct (pydiv 0 (length (val_loader w2))) as [z|e] eqn:Ez;
    [|discriminate Hc].
  apply pydiv_zero in Ez as ->.
  injection Hc as <- _.
  rewrite lookup_insert_ne by discriminate.
  rewrite !lookup_insert_eq. split; reflexivity.
Qed.

(** C5. When the tables load, one of the three index artifacts is missing
    and the creation of the index raises, [validate] prints the two
    messages and returns [None]; the loop then changes none of its
    attributes (best value, best epoch, no-improvement counter), saves no
    checkpoint and goes on with the next epoch. *)
Theorem validation_skipped_without_index (w : world) (th dv : dataframe)
    (vm : gmap string (gmap string cell)) (inf : inference_cfg)
    (ip idp ep : string) (e : exn) (x' : Ext) :
  read_parquet "./data/textual_history.parquet" (ext w) = Ok th ->
  read_parquet "./data/video_info.parquet" (ext w) = Ok dv ->
  videos_map dv = Ok vm ->
  inference (config w) = Some inf ->
  index_path inf = Some ip -> ids_path inf = Some idp ->
  embeddings_path inf = Some ep ->
  (exists p, p ∈ [ip; idp; ep] /\ path_exists p (ext w) = false) ->
  indexer_main (config w) (ext w) = (Raise e, x') ->
  let w' :=
    World (config w) (train_loader w) (val_loader w) (val_dataset w)
          (log w ++ [Print "Index files not found, creating new index...";
                     Call_indexer (config w);
                     PrintError "Error creating index: " e])
          x' in
  validate w = (Ok None, w') /\
  (forall (epoch : nat) (s : trainer),
     after_validation _save_checkpoint epoch None s w' = (Next, s, w', [])) /\
  (forall (te : world -> res metrics * world) (epochs epoch : nat)
          (s : trainer) (w0 : world) (tm : metrics),
     epoch <> 0%nat -> te w0 = (Ok tm, w) ->
     epoch_body te validate _save_checkpoint epochs epoch s w0
     = (Next, s, w',
        [Print ("Epoch " +:+ pretty (epoch + 1)%nat +:+ "/" +:+ pretty epochs);
         Print "Training metrics:"; PrintMetrics tm])).
Proof.
  intros Hth Hdv Hvm Hinf Hip Hidp Hep [p [Hp Hmiss]] Hidx.
  assert (Hall : forallb (fun p => path_exists p (ext w)) [ip; idp; ep] = false).
  { simpl. apply elem_of_cons in Hp as [->|Hp]; [now rewrite Hmiss|].
    apply elem_of_cons in Hp as [->|Hp];
      [rewrite Hmiss; now destruct (path_exists ip (ext w))|].
    apply elem_of_cons in Hp as [->|Hp]; [|inversion Hp].
    rewrite Hmiss.
    destruct (path_exists ip (ext w)), (path_exists idp (ext w)); reflexivity. }
  assert (Hval : validate w =
    (Ok None,
     World (config w) (train_loader w) (val_loader w) (val_dataset w)
           (log w ++ [Print "Index files not found, creating new index...";
                      Call_indexer (config w);
                      PrintError "Error creating index: " e])
           x')).
  { unfold validate, ensure_index. run_monad.
    rewrite Hth, Hdv, Hvm, Hinf. simpl. rewrite Hip, Hidp, Hep. simpl.
    simpl in Hall. rewrite Hall. simpl. rewrite Hidx. simpl.
    unfold with_log, with_ext. simpl. rewrite <- !app_assoc. reflexivity. }
  simpl. split; [exact Hval|]. split; [reflexivity|].
  intros te epochs epoch s w0 tm Hne Hte. unfold epoch_body.
  rewrite Hte. destruct (Nat.eqb_neq epoch 0) as [_ Hf]. rewrite (Hf Hne).
  rewrite Hval. reflexivity.
Qed.

(** C6. When the checkpoint directory can be made and the model saved,
    [_save_checkpoint] asks the indexer for a rebuild with a configuration
    whose [inference.model_path] is the path the model has just been saved
    to, and returns normally whatever the rebuild does: an exception of the
    rebuild is printed, not raised. After the checkpoint of the first
    epoch the loop therefore goes on with the validation. *)
Theorem save_checkpoint_survives_rebuild_failure (epoch : nat)
    (m : option metrics) (w : world) (tr : training_cfg) (dir : string)
    (inf : inference_cfg) (x1 x2 : Ext) :
  training (config w) = Some tr -> checkpoint_dir tr = Some dir ->
  inference (config w) = Some inf ->
  makedirs dir (ext w) = (Ok tt, x1) ->
  save_pretrained (checkpoint_path dir epoch) x1 = (Ok tt, x2) ->
  let saved_path := checkpoint_path dir epoch in
  let index_config :=
    Cfg (training (config w)) (Some (set_model_path inf saved_path))
        (evaluation_ks (config w)) in
  let rebuild := indexer_main index_config x2 in
  let w' :=
    World index_config (train_loader w) (val_loader w) (val_dataset w)
          (log w ++ [Call_makedirs dir; Call_save_pretrained saved_path;
                     Call_indexer index_config;
                     match fst rebuild with
                     | Ok _ => Print "FAISS index updated successfully"
                     | Raise e => PrintError "Error updating index: " e
                     end])
          (snd rebuild) in
  model_path (set_model_path inf saved_path) = Some saved_path /\
  _save_checkpoint epoch m w = (Ok tt, w') /\
  (forall (te : world -> res metrics * world)
          (va : world -> res (option metrics) * world)
          (epochs : nat) (s : trainer) (w0 : world) (tm : metrics),
     epoch = 0%nat -> m = None -> te w0 = (Ok tm, w) ->
     epoch_body te va _save_checkpoint epochs 0 s w0
     = let j2 := [Print ("Epoch " +:+ pretty 1%nat +:+ "/" +:+ pretty epochs);
                  Call_save_checkpoint 0 None;
                  Print "Training metrics:"; PrintMetrics tm] in
       match va w' with
       | (Raise e, w3) => (Raised e, s, w3, j2)
       | (Ok val_metrics, w3) =>
         let '(f, s', w4, j3) :=
           after_validation _save_checkpoint 0 val_metrics s w3 in
         (f, s', w4, j2 ++ j3)
       end).
Proof.
  intros Htr Hdir Hinf Hmk Hsave.
  assert (Hcall : _save_checkpoint epoch m w =
    (Ok tt,
     World (Cfg (training (config w))
                (Some (set_model_path inf (checkpoint_path dir epoch)))
                (evaluation_ks (config w)))
           (train_loader w) (val_loader w) (val_dataset w)
           (log w ++ [Call_makedirs dir;
                      Call_save_pretrained (checkpoint_path dir epoch);
                      Call_indexer
                        (Cfg (training (config w))
                             (Some (set_model_path inf (checkpoint_path dir epoch)))
                             (evaluation_ks (config w)));
                      match fst (indexer_main
                                   (Cfg (training (config w))
                                        (Some (set_model_path inf (checkpoint_path dir epoch)))
                                        (evaluation_ks (config w))) x2) with
                      | Ok _ => Print "FAISS index updated successfully"
                      | Raise e => PrintError "Error updating index: " e
                      end])
           (snd (indexer_main
                   (Cfg (training (config w))
                        (Some (set_model_path inf (checkpoint_path dir epoch)))
                        (evaluation_ks (config w))) x2)))).
  { unfold _save_checkpoint. run_monad.
    rewrite Htr. simpl. rewrite Hdir. simpl. rewrite Hmk. simpl.
    rewrite Hsave. simpl. rewrite Hinf. simpl.
    destruct (indexer_main _ x2) as [[u|e] x3]; simpl;
      unfold with_log, with_ext, with_config; simpl;
      rewrite <- !app_assoc; reflexivity. }
  simpl. split; [reflexivity|]. split; [exact Hcall|].
  intros te va epochs s w0 tm -> -> Hte. unfold epoch_body.
  rewrite Hte. simpl Nat.eqb. cbv iota. rewrite Hcall. reflexivity.
Qed.

(** What [_compile_metrics] computes when there is at least one batch:
    every accumulated metric divided by the number of users (when there is
    one), and the total loss divided by the number of batches. *)
Lemma fold_insert_lookup (f : Q -> Q) (base accum : metrics) (k : string) :
  map_fold (fun metric v acc => <[metric := f v]> acc) base accum !! k
  = match accum !! k with
    | Some v => Some (f v)
    | None => base !! k
    end.
Proof.
  revert k.
  apply (map_fold_weak_ind
           (fun r (m : metrics) =>
              forall k, r !! k = match m !! k with
                                 | Some v => Some (f v)
                                 | None => base !! k
                                 end)).
  - intros k. rewrite lookup_empty. reflexivity.
  - intros i x m r Hi IH k. destruct (decide (i = k)) as [->|Hne].
    + rewrite !lookup_insert_eq. reflexivity.
    + rewrite !lookup_insert_ne by exact Hne. apply IH.
Qed.

Lemma compile_metrics_means (total_loss contrastive_loss recommendation_loss : Q)
    (metrics_accum : metrics) (num_users : nat) (w : world) :
  val_loader w <> [] ->
  exists m,
    fst (_compile_metrics total_loss contrastive_loss recommendation_loss
                          metrics_accum num_users w) = Ok m /\
    (forall k total_value,
       (0 < num_users)%nat -> metrics_accum !! k = Some total_value ->
       m !! k = Some (Qred (total_value / inject_Z (Z.of_nat num_users)))) /\
    (num_users = 0%nat \/ metrics_accum !! "val_loss" = None ->
     m !! "val_loss"
     = Some (Qred (total_loss / inject_Z (Z.of_nat (length (val_loader w)))))).
Proof.
  intros Hne. unfold _compile_metrics. run_monad.
  destruct (val_loader w) as [|b bs]; [contradiction|]. cbn [length pydiv].
  eexists. split; [reflexivity|]. split.
  - intros k v Hpos Hk. destruct num_users as [|n]; [lia|].
    rewrite fold_insert_lookup, Hk. reflexivity.
  - intros Hcase. destruct num_users as [|n].
    + rewrite !lookup_insert_ne by discriminate. apply lookup_insert_eq.
    + destruct Hcase as [Hz|Hk]; [discriminate Hz|].
      rewrite fold_insert_lookup, Hk.
      rewrite !lookup_insert_ne by discriminate. apply lookup_insert_eq.
Qed.

(** The [try] block around the demographic data never lets an exception
    out. *)
Lemma load_demographics_returns (textual_history : dataframe)
    (item_embeddings_array : list vec) (w : world) :
  exists r w', load_demographics textual_history item_embeddings_array w = (Ok r, w').
Proof.
  unfold load_demographics. run_monad.
  destruct (read_parquet "./data/demographic_data.parquet" (ext w)) as [d|e];
    [|eauto].
  destruct (build_centroids d textual_history item_embeddings_array
              demographic_features ∅) as [cs|e]; eauto.
Qed.

Lemma np_item_head {A} (a : A) (l : list A) : np_item (a :: l) 0 = Ok a.
Proof. reflexivity. Qed.

(** What happens in general when the demographic table cannot be read while
    everything else is in place: the warning is printed, and the first user
    of the first batch stops the validation with an exception. *)
Lemma validate_raises_after_demographic_failure (w : world)
    (th dv : dataframe) (vm : gmap string (gmap string cell))
    (inf : inference_cfg) (ip idp ep : string) (index : faiss_index)
    (video_ids : list string) (item_embeddings_array : list vec) (e : exn)
    (tr : training_cfg) (lam : Q) (b : batch) (bs : list batch)
    (it us : vec) (its uss : list vec) (i0 u0 : Z) (is_ us_ : list Z) :
  read_parquet "./data/textual_history.parquet" (ext w) = Ok th ->
  read_parquet "./data/video_info.parquet" (ext w) = Ok dv ->
  videos_map dv = Ok vm ->
  inference (config w) = Some inf ->
  index_path inf = Some ip -> ids_path inf = Some idp ->
  embeddings_path inf = Some ep ->
  forallb (fun p => path_exists p (ext w)) [ip; idp; ep] = true ->
  faiss_read_index ip (ext w) = Ok index ->
  np_load_ids idp (ext w) = Ok video_ids ->
  np_load_embeddings ep (ext w) = Ok item_embeddings_array ->
  read_parquet "./data/demographic_data.parquet" (ext w) = Raise e ->
  training (config w) = Some tr -> lambda_rec tr = Some lam ->
  val_loader w = b :: bs ->
  embed (ext w) b = (it :: its, us :: uss) ->
  item_ids b = i0 :: is_ -> user_ids b = u0 :: us_ ->
  validate w
  = (Raise (UnboundLocalError "demographic_data"),
     with_log (log w ++ [PrintError "Warning: Could not load demographic data: " e]) w).
Proof.
  intros Hth Hdv Hvm Hinf Hip Hidp Hep Hall Hidx Hids Hemb Hdemo Htr Hlam
         Hloader Hb Hitems Husers.
  unfold validate, ensure_index, load_demographics. run_monad.
  rewrite Hth, Hdv, Hvm, Hinf. cbn [item]. rewrite Hip, Hidp, Hep. cbn [item].
  rewrite Hall. cbn [negb]. rewrite Hidx, Hids, Hemb, Hdemo.
  cbn [with_log config ext val_loader log]. rewrite Hinf. cbn [item].
  rewrite Hloader. cbn [validate_batches]. run_monad.
  cbn [with_log config ext val_loader log]. rewrite Hb.
  cbn [with_log config ext val_loader log]. rewrite Htr. cbn [item].
  rewrite Hlam. cbn [item length seq validate_users]. unfold validate_user.
  run_monad. rewrite Hitems, Husers, !np_item_head. reflexivity.
Qed.

(** A validation that returns metrics has processed no user, and reports
    none of the per-user metrics. *)
Lemma validate_reports_no_user_metric (w w' : world) (m : metrics) :
  validate w = (Ok (Some m), w') ->
  m !! "semantic_precision@k" = None /\
  m !! "cross_category_relevance" = None /\
  m !! "contextual_ndcg" = None.
Proof.
  intros Hv. apply validate_returns_inv in Hv as [total_loss [w2 [_ Hc]]].
  unfold _compile_metrics in Hc. revert Hc. run_monad. intros Hc.
  repeat step_in Hc. injection Hc as <- _.
  rewrite !lookup_insert_ne by discriminate.
  rewrite lookup_empty. auto.
Qed.

End TrainerFacts.

(** *** More about the loop *)

Definition flow_of {W} (r : flow * trainer * W * list event) : flow :=
  fst (fst (fst r)).
Definition trainer_of {W} (r : flow * trainer * W * list event) : trainer :=
  snd (fst (fst r)).
Definition journal_of {W} (r : flow * trainer * W * list event) : list event :=
  snd r.

(** [a <= b] on best values, [float('-inf')] below everything. *)
Definition best_le (a b : efloat) : Prop :=
  match a, b with
  | NegInf, _ => True
  | Fin _, NegInf => False
  | Fin x, Fin y => x <= y
  end.

Lemma best_le_refl a : best_le a a.
Proof. destruct a; simpl; [exact I | apply Qle_refl]. Qed.

Lemma best_le_trans a b c : best_le a b -> best_le b c -> best_le a c.
Proof.
  destruct a, b, c; simpl; try tauto. apply Qle_trans.
Qed.

Lemma exceeds_best_le current best :
  exceeds current best = true -> best_le best (Fin current).
Proof.
  destruct best as [|b]; simpl; [trivial|].
  intros Hx. apply negb_true_iff in Hx.
  destruct (Qlt_le_dec b current) as [Hlt|Hle]; [now apply Qlt_le_weak|].
  apply Qle_bool_iff in Hle. congruence.
Qed.

Section LoopInvariants.

Context {W : Type}.
Variable train_epoch : W -> res metrics * W.
Variable validate : W -> res (option metrics) * W.
Variable save_checkpoint : nat -> option metrics -> W -> res unit * W.

Abbreviation after' := (after_validation save_checkpoint).
Abbreviation body' := (epoch_body train_epoch validate save_checkpoint).
Abbreviation loop' := (train_loop train_epoch validate save_checkpoint).

(** What one validation does to the attributes, whatever it returns:
    nothing, an improvement, or one more epoch without improvement. *)
Lemma after_validation_step epoch vm s (w : W) :
  let r := after' epoch vm s w in
  (trainer_of r = s /\ flow_of r = Next /\ journal_of r = []) \/
  (exists m, vm = Some m /\ m <> ∅ /\
     exceeds (default 0 (m !! "contextual_ndcg")) (best_metric s) = true /\
     trainer_of r = Trainer (Fin (default 0 (m !! "contextual_ndcg"))) epoch
                            (self_patience s) 0 /\
     (flow_of r = Break -> (self_patience s <= 0)%Z) /\
     (flow_of r = Next -> (0 < self_patience s)%Z)) \/
  (trainer_of r = Trainer (best_metric s) (best_epoch s) (self_patience s)
                          (no_improvement s + 1) /\
   (flow_of r = Break /\ (self_patience s <= no_improvement s + 1)%Z \/
    flow_of r = Next /\ (no_improvement s + 1 < self_patience s)%Z)).
Proof.
  cbv zeta. destruct vm as [m|]; [|left; repeat split].
  destruct (decide (m = ∅)) as [Hm|Hm].
  { unfold after_validation. destruct (decide (m = ∅)); [|contradiction].
    left; repeat split. }
  destruct (after_validation_cases save_checkpoint epoch m s w Hm)
    as [[Hx Heq]|[Hx Heq]]; cbv zeta in Heq; rewrite Heq; clear Heq.
  - right. left. exists m.
    destruct (save_checkpoint epoch (Some m) w) as [[u|e] w1];
      [destruct (self_patience s <=? 0)%Z eqn:E;
       [apply Z.leb_le in E | apply Z.leb_gt in E]|];
      repeat split; auto; try discriminate.
  - right. right.
    destruct (self_patience s <=? no_improvement s + 1)%Z eqn:E;
      [apply Z.leb_le in E | apply Z.leb_gt in E];
      (split; [reflexivity|]); [left | right]; split; auto.
Qed.

(** One pass through the loop body either leaves the attributes alone or
    ends with a validation. *)
Lemma epoch_body_step epochs epoch s (w : W) :
  let r := body' epochs epoch s w in
  (trainer_of r = s /\ flow_of r <> Break) \/
  (exists vm w3, trainer_of r = trainer_of (after' epoch vm s w3) /\
                 flow_of r = flow_of (after' epoch vm s w3)).
Proof.
  cbv zeta. unfold epoch_body.
  destruct (train_epoch w) as [[tm|e] w1]; [|left; split; [reflexivity | discriminate]].
  destruct (Nat.eqb epoch 0).
  - destruct (save_checkpoint epoch None w1) as [[u|e] w2];
      [|left; split; [reflexivity | discriminate]].
    destruct (validate w2) as [[vm|e] w3];
      [|left; split; [reflexivity | discriminate]].
    right. exists vm, w3.
    destruct (after_validation save_checkpoint epoch vm s w3) as [[[f s'] w4] j3].
    split; reflexivity.
  - destruct (validate w1) as [[vm|e] w3];
      [|left; split; [reflexivity | discriminate]].
    right. exists vm, w3.
    destruct (after_validation save_checkpoint epoch vm s w3) as [[[f s'] w4] j3].
    split; reflexivity.
Qed.

Definition early_stopping_line (p : Z) : event :=
  Print ("Early stopping triggered. No improvement for " +:+ pretty p +:+ " epochs.").

Lemma after_validation_break epoch vm s (w : W) :
  flow_of (after' epoch vm s w) = Break ->
  exists j, journal_of (after' epoch vm s w) = j ++ [early_stopping_line (self_patience s)].
Proof.
  destruct vm as [m|]; [|discriminate].
  destruct (decide (m = ∅)) as [Hm|Hm].
  { unfold after_validation. destruct (decide (m = ∅)); [|contradiction].
    discriminate. }
  destruct (after_validation_cases save_checkpoint epoch m s w Hm)
    as [[Hx Heq]|[Hx Heq]]; cbv zeta in Heq; rewrite Heq; clear Heq.
  - destruct (save_checkpoint epoch (Some m) w) as [[u|e] w1];
      [destruct (self_patience s <=? 0)%Z|]; try discriminate.
    intros _. exists [Call_save_checkpoint epoch (Some m)]. reflexivity.
  - destruct (self_patience s <=? no_improvement s + 1)%Z; try discriminate.
    intros _. exists []. reflexivity.
Qed.

Lemma epoch_body_break epochs epoch s (w : W) :
  flow_of (body' epochs epoch s w) = Break ->
  exists j, journal_of (body' epochs epoch s w)
            = j ++ [early_stopping_line (self_patience s)].
Proof.
  unfold epoch_body.
  destruct (train_epoch w) as [[tm|e] w1]; [|discriminate].
  destruct (Nat.eqb epoch 0).
  - destruct (save_checkpoint epoch None w1) as [[u|e] w2]; [|discriminate].
    destruct (validate w2) as [[vm|e] w3]; [|discriminate].
    pose proof (after_validation_break epoch vm s w3) as Ha.
    destruct (after_validation save_checkpoint epoch vm s w3) as [[[f s'] w4] j3].
    unfold flow_of, journal_of in *. cbn [fst snd] in *.
    intros Hf. destruct (Ha Hf) as [j ->]. eexists. apply app_assoc.
  - destruct (validate w1) as [[vm|e] w3]; [|discriminate].
    pose proof (after_validation_break epoch vm s w3) as Ha.
    destruct (after_validation save_checkpoint epoch vm s w3) as [[[f s'] w4] j3].
    unfold flow_of, journal_of in *. cbn [fst snd] in *.
    intros Hf. destruct (Ha Hf) as [j ->]. eexists. apply app_assoc.
Qed.

(** The patience never changes. *)
Lemma epoch_body_patience epochs epoch s (w : W) :
  self_patience (trainer_of (body' epochs epoch s w)) = self_patience s.
Proof.
  destruct (epoch_body_step epochs epoch s w) as [[-> _]|[vm [w3 [-> _]]]];
    [reflexivity|].
  destruct (after_validation_step epoch vm s w3)
    as [(-> & _)|[(m & _ & _ & _ & -> & _)|(-> & _)]]; reflexivity.
Qed.

Lemma train_loop_patience epochs todo : forall s (w : W),
  self_patience (trainer_of (loop' epochs todo s w)) = self_patience s.
Proof.
  induction todo as [|epoch todo IH]; intros s w; [reflexivity|].
  cbn [train_loop].
  pose proof (epoch_body_patience epochs epoch s w) as Hb.
  destruct (body' epochs epoch s w) as [[[f s'] w'] j].
  unfold trainer_of in Hb. cbn [fst snd] in Hb.
  destruct f; [|exact Hb..].
  specialize (IH s' w').
  destruct (loop' epochs todo s' w') as [[[f2 s2] w2] j2].
  unfold trainer_of in *. cbn [fst snd] in *. congruence.
Qed.

Lemma train_loop_break epochs todo : forall s (w : W),
  flow_of (loop' epochs todo s w) = Break ->
  exists j, journal_of (loop' epochs todo s w)
            = j ++ [early_stopping_line (self_patience s)].
Proof.
  induction todo as [|epoch todo IH]; intros s w; [discriminate|].
  cbn [train_loop].
  pose proof (epoch_body_break epochs epoch s w) as Hb.
  pose proof (epoch_body_patience epochs epoch s w) as Hp.
  destruct (body' epochs epoch s w) as [[[f s'] w'] j] eqn:Eb.
  unfold trainer_of in Hp. cbn [fst snd] in Hp.
  destruct f; [|exact Hb|discriminate].
  specialize (IH s' w').
  destruct (loop' epochs todo s' w') as [[[f2 s2] w2] j2].
  unfold flow_of, journal_of in *. cbn [fst snd] in *.
  intros Hf. destruct (IH Hf) as [j3 ->]. rewrite Hp.
  eexists. apply app_assoc.
Qed.

(** X10. Started with a counter below the patience (as [__init__] leaves it
    for a positive patience), the loop never changes the patience and keeps
    the no-improvement counter between 0 and the patience; it ends with
    [break] exactly when the counter has reached the patience, and the last
    thing it then prints is the early-stopping line with that number. *)
Theorem no_improvement_bounded (epochs : nat) (todo : list nat) (s : trainer) (w : W) :
  (0 <= no_improvement s < self_patience s)%Z ->
  let r := loop' epochs todo s w in
  self_patience (trainer_of r) = self_patience s /\
  (0 <= no_improvement (trainer_of r) <= self_patience s)%Z /\
  (flow_of r = Break <-> no_improvement (trainer_of r) = self_patience s) /\
  (flow_of r = Break ->
   exists j, journal_of r = j ++ [early_stopping_line (self_patience s)]).
Proof.
  intros Hinv. cbv zeta.
  cut (self_patience (trainer_of (loop' epochs todo s w)) = self_patience s /\
       (0 <= no_improvement (trainer_of (loop' epochs todo s w)) <= self_patience s)%Z /\
       (flow_of (loop' epochs todo s w) = Break <->
        no_improvement (trainer_of (loop' epochs todo s w)) = self_patience s)).
  { intros (H1 & H2 & H3). repeat split; try tauto; try lia.
    apply train_loop_break. }
  revert Hinv.
  cbv zeta. revert s w. induction todo as [|epoch todo IH]; intros s w Hinv.
  - unfold trainer_of, flow_of. cbn.
    split; [reflexivity|]. split; [lia|]. split; [discriminate | lia].
  - cbn [train_loop].
    assert (Hbody :
      let r := body' epochs epoch s w in
      self_patience (trainer_of r) = self_patience s /\
      (flow_of r = Break -> no_improvement (trainer_of r) = self_patience s) /\
      (flow_of r <> Break ->
       (0 <= no_improvement (trainer_of r) < self_patience s)%Z)).
    { cbv zeta.
      destruct (epoch_body_step epochs epoch s w) as [[-> Hf]|[vm [w3 [-> ->]]]];
        [repeat split; try lia; intros; contradiction|].
      destruct (after_validation_step epoch vm s w3)
        as [(-> & -> & _)|[(m & _ & _ & _ & -> & Hb & Hn)|(-> & [[-> Hp]|[-> Hp]])]];
        cbn [self_patience no_improvement];
        (split; [reflexivity|split]);
        intros Hf; try discriminate Hf; try (apply Hb in Hf);
        try (exfalso; apply Hf; reflexivity); lia. }
    cbv zeta in Hbody.
    destruct (body' epochs epoch s w) as [[[f s'] w'] j] eqn:Eb.
    unfold trainer_of, flow_of in Hbody. cbn [fst snd] in Hbody.
    destruct Hbody as (Hp & Hbreak & Hother).
    destruct f.
    + specialize (IH s' w').
      destruct (loop' epochs todo s' w') as [[[f2 s2] w2] j2].
      unfold trainer_of, flow_of in *. cbn [fst snd] in *.
      rewrite <- Hp. apply IH. rewrite Hp. apply Hother. discriminate.
    + unfold trainer_of, flow_of. cbn [fst snd].
      specialize (Hbreak eq_refl). split; [exact Hp|]. split; [lia|].
      split; [intros _; exact Hbreak | reflexivity].
    + unfold trainer_of, flow_of. cbn [fst snd].
      assert (Hb : (0 <= no_improvement s' < self_patience s)%Z)
        by (apply Hother; discriminate).
      split; [exact Hp|]. split; [lia|].
      split; [discriminate | lia].
Qed.

Lemma epoch_body_best epochs epoch s (w : W) :
  let r := body' epochs epoch s w in
  best_le (best_metric s) (best_metric (trainer_of r)) /\
  ((best_metric (trainer_of r) = best_metric s /\
    best_epoch (trainer_of r) = best_epoch s) \/
   (best_epoch (trainer_of r) = epoch /\
    exists q, best_metric (trainer_of r) = Fin q)).
Proof.
  cbv zeta.
  destruct (epoch_body_step epochs epoch s w) as [[-> _]|[vm [w3 [-> _]]]];
    [split; [apply best_le_refl | left; split; reflexivity]|].
  destruct (after_validation_step epoch vm s w3)
    as [(-> & _)|[(m & _ & _ & Hx & -> & _)|(-> & _)]];
    cbn [best_metric best_epoch].
  - split; [apply best_le_refl | left; split; reflexivity].
  - split; [apply exceeds_best_le, Hx | right; split; [reflexivity | eauto]].
  - split; [apply best_le_refl | left; split; reflexivity].
Qed.

(** X11. The best value never decreases over a run of the loop, and the
    best epoch goes with it: either both are as before the run, or the best
    epoch is one of the epochs of this run and the best value is a number
    (no longer minus infinity). *)
Theorem best_metric_monotone (epochs : nat) (todo : list nat) (s : trainer) (w : W) :
  let r := loop' epochs todo s w in
  best_le (best_metric s) (best_metric (trainer_of r)) /\
  ((best_metric (trainer_of r) = best_metric s /\
    best_epoch (trainer_of r) = best_epoch s) \/
   (best_epoch (trainer_of r) ∈ todo /\
    exists q, best_metric (trainer_of r) = Fin q)).
Proof.
  cbv zeta. revert s w. induction todo as [|epoch todo IH]; intros s w.
  - split; [apply best_le_refl | left; split; reflexivity].
  - cbn [train_loop].
    pose proof (epoch_body_best epochs epoch s w) as Hb. cbv zeta in Hb.
    destruct (body' epochs epoch s w) as [[[f s'] w'] j].
    unfold trainer_of in Hb. cbn [fst snd] in Hb.
    destruct Hb as [Hle Hcase].
    assert (Hstop : best_le (best_metric s) (best_metric s') /\
              ((best_metric s' = best_metric s /\ best_epoch s' = best_epoch s) \/
               (best_epoch s' ∈ epoch :: todo /\ exists q, best_metric s' = Fin q))).
    { split; [exact Hle|]. destruct Hcase as [?|[-> ?]]; [left | right]; auto.
      split; [left | assumption]. }
    destruct f; [|exact Hstop..]. clear Hstop.
    specialize (IH s' w').
    destruct (loop' epochs todo s' w') as [[[f2 s2] w2] j2].
    unfold trainer_of in *. cbn [fst snd] in *.
    destruct IH as [Hle2 Hcase2]. split; [eapply best_le_trans; eassumption|].
    destruct Hcase2 as [[Hm He]|[Hin Hq]].
    + rewrite Hm, He. destruct Hcase as [?|[-> ?]]; [left | right]; auto.
      split; [left | assumption].
    + right. split; [now right | exact Hq].
Qed.


(** X13. With a patience of zero or less, a validation that returns metrics
    always ends the training, also when the metric has improved: such a
    validation never lets the loop go on, so a run that ends normally has
    left the attributes untouched. *)
Theorem nonpositive_patience_stops (epochs : nat) (todo : list nat) (s : trainer) (w : W) :
  (self_patience s <= 0)%Z -> (0 <= no_improvement s)%Z ->
  (forall epoch m w0, m <> ∅ -> flow_of (after' epoch (Some m) s w0) <> Next) /\
  (flow_of (loop' epochs todo s w) = Next -> trainer_of (loop' epochs todo s w) = s).
Proof.
  intros Hp Hc.
  assert (Hafter : forall epoch vm w0,
            flow_of (after' epoch vm s w0) = Next ->
            trainer_of (after' epoch vm s w0) = s /\ (vm = None \/ vm = Some ∅)).
  { intros epoch vm w0 Hf. destruct vm as [m|]; [|split; [reflexivity | now left]].
    destruct (decide (m = ∅)) as [->|Hm].
    { unfold after_validation. destruct (decide (∅ = ∅)); [|contradiction].
      split; [reflexivity | now right]. }
    exfalso.
    destruct (after_validation_step epoch (Some m) s w0)
      as [(_ & _ & Hj)|[(m' & _ & _ & _ & _ & _ & Hn)|(_ & [[Hb _]|[_ Hlt]])]].
    - revert Hj. 
      destruct (after_validation_cases save_checkpoint epoch m s w0 Hm)
        as [[Hx Heq]|[Hx Heq]]; cbv zeta in Heq; rewrite Heq in Hf |- *.
      + destruct (save_checkpoint epoch (Some m) w0) as [[u|e] w1];
          [destruct (self_patience s <=? 0)%Z|]; discriminate.
      + destruct (self_patience s <=? no_improvement s + 1)%Z eqn:E;
          [discriminate Hf | apply Z.leb_gt in E; lia].
    - specialize (Hn Hf). lia.
    - congruence.
    - lia. }
  split.
  - intros epoch m w0 Hm Hf. apply Hafter in Hf as [_ [Hv|Hv]]; congruence.
  - revert w. induction todo as [|epoch todo IH]; intros w; [reflexivity|].
    cbn [train_loop].
    pose proof (epoch_body_step epochs epoch s w) as Hs. cbv zeta in Hs.
    destruct (body' epochs epoch s w) as [[[f s'] w'] j].
    destruct f; [|discriminate..].
    assert (Hs' : s' = s).
    { destruct Hs as [[Hs _]|[vm [w3 [Ht Hf]]]]; [exact Hs|].
      change (trainer_of (Next, s', w', j)) with s' in Ht. rewrite Ht.
      apply Hafter. symmetry. exact Hf. }
    subst s'. specialize (IH w').
    destruct (loop' epochs todo s w') as [[[f2 s2] w2] j2].
    exact IH.
Qed.

End LoopInvariants.

Lemma no_improvement_bounded_witness :
  let r := train_loop quiet_train_epoch (scripted_validate (fun _ => 1 # 2))
                      quiet_save 10 (seq 0 10) (init (patience_cfg 3)) 0%nat in
  self_patience (trainer_of r) = 3%Z /\
  (0 <= no_improvement (trainer_of r) <= 3)%Z /\
  (flow_of r = Break <-> no_improvement (trainer_of r) = 3%Z) /\
  (flow_of r = Break ->
   exists j, journal_of r = j ++ [early_stopping_line 3]).
Proof.
  apply (no_improvement_bounded quiet_train_epoch
           (scripted_validate (fun _ => 1 # 2)) quiet_save 10 (seq 0 10)
           (init (patience_cfg 3)) 0%nat).
  simpl. lia.
Defined.

Lemma nonpositive_patience_stops_witness :
  flow_of (after_validation quiet_save 0 (Some {["contextual_ndcg" := 1 # 2]})
                            (init (patience_cfg 0)) 1%nat) <> Next.
Proof.
  apply (proj1 (nonpositive_patience_stops quiet_train_epoch
                  (scripted_validate (fun _ => 1 # 2)) quiet_save 1 [0%nat]
                  (init (patience_cfg 0)) 0%nat
                  ltac:(simpl; lia) ltac:(simpl; lia))).
  apply singleton_metrics_nonempty.
Defined.

Example zero_patience_run :
  let r := train quiet_train_epoch (scripted_validate (fun e => inject_Z (Z.of_nat e)))
                 quiet_save 5 (init (patience_cfg 0)) 0%nat in
  flow_of r = Break /\ best_epoch (trainer_of r) = 0%nat /\ snd (fst r) = 1%nat.
Proof. vm_compute. repeat split. Qed.

(** *** More about the trainer's own methods *)

(** Case analysis on the next step of a run whose outcome is known. *)
Ltac case_step Hv :=
  match type of Hv with
  | context [match ?x with _ => _ end] => destruct x eqn:?; try discriminate Hv
  end.

Section MoreTrainerFacts.

Context `{Collaborators}.

(** X14. The dict that [validate] returns is never empty and never has the
    key [contextual_ndcg], so the loop compares the number 0 with the best
    value: the first validation that returns metrics sets the best value to
    0 and is checkpointed, and every later one counts as an epoch without
    improvement. *)
Theorem validation_metric_is_zero (w w' : world) (m : metrics) :
  validate w = (Ok (Some m), w') ->
  m <> ∅ /\ default 0 (m !! "contextual_ndcg") = 0 /\
  forall (W : Type) (sv : nat -> option metrics -> W -> res unit * W)
         (epoch : nat) (s : trainer) (w0 : W),
    let r := after_validation sv epoch (Some m) s w0 in
    (best_metric s = NegInf ->
     trainer_of r = Trainer (Fin 0) epoch (self_patience s) 0 /\
     Call_save_checkpoint epoch (Some m) ∈ journal_of r) /\
    (forall b, best_metric s = Fin b -> 0 <= b ->
     trainer_of r = Trainer (Fin b) (best_epoch s) (self_patience s)
                            (no_improvement s + 1) /\
     Call_save_checkpoint epoch (Some m) ∉ journal_of r).
Proof.
  intros Hv.
  assert (Hk : m !! "contextual_ndcg" = None)
    by (eapply validate_reports_no_user_metric, Hv).
  assert (Hm : m <> ∅).
  { apply validate_returns_inv in Hv as [total_loss [w2 [_ Hc]]].
    unfold _compile_metrics in Hc. revert Hc. run_monad. intros Hc.
    repeat case_step Hc. injection Hc as <- _. apply insert_non_empty. }
  split; [exact Hm|]. split; [now rewrite Hk|].
  intros W sv epoch s w0. cbv zeta.
  destruct (after_validation_cases sv epoch m s w0 Hm) as [[Hx Heq]|[Hx Heq]];
    cbv zeta in Heq; rewrite Heq; clear Heq; rewrite Hk in *;
    cbn [default from_option] in *.
  - split.
    + intros _. destruct (sv epoch (Some m) w0) as [[u|e] w1];
        [destruct (self_patience s <=? 0)%Z|];
        (split; [reflexivity | left]).
    + intros b Hb Hle. exfalso. rewrite Hb in Hx. simpl in Hx.
      apply negb_true_iff in Hx. apply Qle_bool_iff in Hle. congruence.
  - split.
    + intros Hb. rewrite Hb in Hx. discriminate Hx.
    + intros b Hb _. rewrite Hb.
      destruct (self_patience s <=? no_improvement s + 1)%Z;
        (split; [reflexivity|]); unfold journal_of; cbn [snd];
        intros Hin; in_journal.
Qed.

(** The optimizer step that [training_step] takes for a batch. *)
Definition step_on (x : Ext) (b : batch) : Ext :=
  optimizer_step (items_text_inputs b) (user_text_inputs b) (item_ids b)
                 (user_ids b) x.

Lemma with_ext_same (w : world) : with_ext (ext w) w = w.
Proof. now destruct w. Qed.

Lemma qadd_correct a b : qadd a b == a + b.
Proof. unfold qadd. apply Qred_correct. Qed.

(** The loop over the training batches when [lambda_rec] is configured: it
    takes one optimizer step per batch, in order, and keeps the relation
    between the three running totals. *)
Lemma train_batches_ok (tr : training_cfg) (lam : Q) (bs : list batch) :
  forall (tl tc trr : Q) (w : world),
    training (config w) = Some tr -> lambda_rec tr = Some lam ->
    exists tl' tc' tr',
      train_batches bs (tl, tc, trr) w
      = (Ok (tl', tc', tr'), with_ext (fold_left step_on bs (ext w)) w) /\
      (tl == tc + lam * trr -> tl' == tc' + lam * tr').
Proof.
  induction bs as [|b bs IH]; intros tl tc trr w Htr Hlam.
  - exists tl, tc, trr. cbn. unfold ret. rewrite with_ext_same. auto.
  - cbn [train_batches fold_left]. unfold training_step. run_monad.
    destruct (embed (ext w) b) as [items_embeddings user_embeddings].
    rewrite Htr. cbn [item]. rewrite Hlam. cbn [item].
    match goal with
    | |- context [train_batches bs (?a, ?b0, ?c) ?w1] =>
      destruct (IH a b0 c w1) as (tl' & tc' & tr' & Heq & Hinv);
        [exact Htr | exact Hlam |]
    end.
    exists tl', tc', tr'. split.
    + rewrite Heq. destruct w. reflexivity.
    + intros Hrel. apply Hinv. rewrite !qadd_correct, Hrel. ring.
Qed.

Lemma inject_nat_nonzero (n : nat) : ~ inject_Z (Z.of_nat (S n)) == 0.
Proof. unfold Qeq. simpl. lia. Qed.

(** X15. With [lambda_rec] configured and at least one batch, [train_epoch]
    takes one optimizer step per batch, in the order of the loader, and
    touches nothing else; it returns exactly the three keys [loss],
    [contrastive_loss] and [recommendation_loss], and the reported loss is
    the contrastive loss plus [lambda_rec] times the recommendation loss. *)
Theorem train_epoch_metrics (w : world) (tr : training_cfg) (lam : Q)
    (b : batch) (bs : list batch) :
  training (config w) = Some tr -> lambda_rec tr = Some lam ->
  train_loader w = b :: bs ->
  exists (m : metrics) (loss c_loss r_loss : Q),
    train_epoch w = (Ok m, with_ext (fold_left step_on (b :: bs) (ext w)) w) /\
    m !! "loss" = Some loss /\
    m !! "contrastive_loss" = Some c_loss /\
    m !! "recommendation_loss" = Some r_loss /\
    (forall k, is_Some (m !! k) ->
               k ∈ ["loss"; "contrastive_loss"; "recommendation_loss"]) /\
    loss == c_loss + lam * r_loss.
Proof.
  intros Htr Hlam Hl. unfold train_epoch. run_monad. rewrite Hl.
  destruct (train_batches_ok tr lam (b :: bs) 0 0 0 w Htr Hlam)
    as (tl & tc & trr & Heq & Hinv).
  rewrite Heq. cbn [length pydiv].
  eexists _, _, _, _. split; [reflexivity|].
  split; [apply lookup_insert_eq|].
  split; [rewrite lookup_insert_ne by discriminate; apply lookup_insert_eq|].
  split; [rewrite !lookup_insert_ne by discriminate; apply lookup_insert_eq|].
  split.
  - intros k [v Hk].
    destruct (decide (k = "loss")) as [->|H1]; [left|].
    destruct (decide (k = "contrastive_loss")) as [->|H2]; [right; left|].
    destruct (decide (k = "recommendation_loss")) as [->|H3]; [do 2 right; left|].
    rewrite !lookup_insert_ne, lookup_empty in Hk by congruence. discriminate Hk.
  - rewrite !Qred_correct. rewrite Hinv by ring.
    field. apply inject_nat_nonzero.
Qed.

(** X16. [train_epoch] on an empty training loader divides by zero; with
    batches but without the [training] section, or without [lambda_rec] in
    it, it raises the [KeyError] on the first batch, before any optimizer
    step: the world is as it was. *)
Theorem train_epoch_edges (w : world) :
  (train_loader w = [] -> train_epoch w = (Raise ZeroDivisionError, w)) /\
  (train_loader w <> [] -> training (config w) = None ->
   train_epoch w = (Raise (KeyError "training"), w)) /\
  (forall tr, train_loader w <> [] -> training (config w) = Some tr ->
              lambda_rec tr = None ->
              train_epoch w = (Raise (KeyError "lambda_rec"), w)).
Proof.
  unfold train_epoch. run_monad. split; [|split].
  - intros ->. reflexivity.
  - intros Hl Htr. destruct (train_loader w) as [|b bs]; [contradiction|].
    cbn [train_batches]. unfold training_step. run_monad.
    destruct (embed (ext w) b). rewrite Htr. reflexivity.
  - intros tr Hl Htr Hlam. destruct (train_loader w) as [|b bs]; [contradiction|].
    cbn [train_batches]. unfold training_step. run_monad.
    destruct (embed (ext w) b). rewrite Htr. cbn [item]. rewrite Hlam. reflexivity.
Qed.

(** X17. [_update_metrics] adds every value of the user's dict to the
    accumulator entry of the same name, starting from 0 for a name the
    accumulator does not have yet, and leaves all other entries as they
    are. *)
Theorem update_metrics_lookup (metrics_accum user_metrics : metrics) (k : string) :
  _update_metrics metrics_accum user_metrics !! k
  = match user_metrics !! k with
    | Some value => Some (qadd (default 0 (metrics_accum !! k)) value)
    | None => metrics_accum !! k
    end.
Proof.
  unfold _update_metrics. revert k.
  apply (map_fold_weak_ind
           (fun r (m : metrics) =>
              forall k, r !! k = match m !! k with
                                 | Some value =>
                                   Some (qadd (default 0 (metrics_accum !! k)) value)
                                 | None => metrics_accum !! k
                                 end)).
  - intros k. rewrite lookup_empty. reflexivity.
  - intros i x m r Hi IH k. destruct (decide (i = k)) as [->|Hne].
    + rewrite !lookup_insert_eq, IH, Hi. reflexivity.
    + rewrite !lookup_insert_ne by exact Hne. apply IH.
Qed.

Lemma with_log_twice (w : world) (j1 j2 : list event) :
  with_log (log (with_log (log w ++ j1) w) ++ j2) (with_log (log w ++ j1) w)
  = with_log (log w ++ j1 ++ j2) w.
Proof. destruct w. unfold with_log. cbn. now rewrite app_assoc. Qed.

(** X18. [_compile_metrics] divides by zero on an empty validation loader
    and then prints nothing.  Otherwise it prints the dict it returns; the
    dict holds the three losses divided by the number of batches and, when
    at least one user was counted, every accumulated metric divided by the
    number of users, an accumulated metric taking precedence over a loss of
    the same name.  With no user the accumulated metrics are left out. *)
Theorem compile_metrics_spec (total_loss contrastive_loss recommendation_loss : Q)
    (metrics_accum : metrics) (num_users : nat) (w : world) :
  (val_loader w = [] ->
   _compile_metrics total_loss contrastive_loss recommendation_loss
                    metrics_accum num_users w
   = (Raise ZeroDivisionError, w)) /\
  (val_loader w <> [] ->
   exists m,
     _compile_metrics total_loss contrastive_loss recommendation_loss
                      metrics_accum num_users w
     = (Ok m, with_log (log w ++ [Print "Validation Metrics:"; PrintMetrics m]) w) /\
     forall k,
       m !! k
       = let per_batch q := Qred (q / inject_Z (Z.of_nat (length (val_loader w)))) in
         let losses :=
           if decide (k = "val_loss") then Some (per_batch total_loss)
           else if decide (k = "val_contrastive_loss")
                then Some (per_batch contrastive_loss)
           else if decide (k = "val_recommendation_loss")
                then Some (per_batch recommendation_loss)
           else None in
         match num_users, metrics_accum !! k with
         | S _, Some total_value =>
           Some (Qred (total_value / inject_Z (Z.of_nat num_users)))
         | _, _ => losses
         end).
Proof.
  unfold _compile_metrics. run_monad. split.
  - intros ->. reflexivity.
  - intros Hne. destruct (val_loader w) as [|b bs] eqn:El; [contradiction|].
    cbn [length pydiv]. eexists. split.
    + rewrite (with_log_twice w [_] [_]). reflexivity.
    + intros k. cbv zeta.
      assert (Hbase :
        (<["val_recommendation_loss" :=
             Qred (recommendation_loss / inject_Z (Z.of_nat (S (length bs))))]>
           (<["val_contrastive_loss" :=
                Qred (contrastive_loss / inject_Z (Z.of_nat (S (length bs))))]>
              (<["val_loss" :=
                   Qred (total_loss / inject_Z (Z.of_nat (S (length bs))))]>
                 (∅ : metrics)))) !! k
        = if decide (k = "val_loss")
          then Some (Qred (total_loss / inject_Z (Z.of_nat (S (length bs)))))
          else if decide (k = "val_contrastive_loss")
               then Some (Qred (contrastive_loss / inject_Z (Z.of_nat (S (length bs)))))
          else if decide (k = "val_recommendation_loss")
               then Some (Qred (recommendation_loss / inject_Z (Z.of_nat (S (length bs)))))
          else None).
      { destruct (decide (k = "val_loss")) as [->|H1];
          [now rewrite !lookup_insert_ne, lookup_insert_eq by discriminate|].
        destruct (decide (k = "val_contrastive_loss")) as [->|H2];
          [now rewrite lookup_insert_ne, lookup_insert_eq by discriminate|].
        destruct (decide (k = "val_recommendation_loss")) as [->|H3];
          [now rewrite lookup_insert_eq|].
        now rewrite !lookup_insert_ne, lookup_empty by congruence. }
      destruct num_users as [|n]; [exact Hbase|].
      rewrite fold_insert_lookup.
      destruct (metrics_accum !! k); [reflexivity | exact Hbase].
Qed.

(** *** What [validate] leaves alone *)

(** The events that are mere output. *)
Definition printed (e : event) : Prop :=
  match e with
  | Print _ | PrintError _ _ | PrintMetrics _ => True
  | _ => False
  end.

(** A computation that at most prints. *)
Definition quiet {A} (m : M A) : Prop :=
  forall w, exists j, snd (m w) = with_log (log w ++ j) w /\ Forall printed j.

Lemma with_log_nil (w : world) : with_log (log w ++ []) w = w.
Proof. destruct w. unfold with_log. cbn. now rewrite app_nil_r. Qed.

Lemma quiet_still {A} (m : M A) : (forall w, snd (m w) = w) -> quiet m.
Proof.
  intros Hm w. exists []. rewrite Hm, with_log_nil. split; [reflexivity | constructor].
Qed.

Lemma quiet_ret {A} (a : A) : quiet (ret a).
Proof. now apply quiet_still. Qed.

Lemma quiet_raise {A} (e : exn) : quiet (raise e : M A).
Proof. now apply quiet_still. Qed.

Lemma quiet_lift {A} (r : res A) : quiet (lift r).
Proof. now apply quiet_still. Qed.

Lemma quiet_read {A} (f : Ext -> res A) : quiet (read f).
Proof. now apply quiet_still. Qed.

Lemma quiet_get_world : quiet get_world.
Proof. now apply quiet_still. Qed.

Lemma quiet_get_config : quiet get_config.
Proof. now apply quiet_still. Qed.

Lemma quiet_emit (e : event) : printed e -> quiet (emit e).
Proof.
  intros He w. exists [e]. split; [reflexivity | now constructor].
Qed.

Lemma quiet_bind {A B} (m : M A) (k : A -> M B) :
  quiet m -> (forall a, quiet (k a)) -> quiet (bind m k).
Proof.
  intros Hm Hk w. unfold bind. destruct (Hm w) as [j1 [E1 H1]].
  destruct (m w) as [[a|e] w1]; cbn [snd] in E1; subst w1.
  - destruct (Hk a (with_log (log w ++ j1) w)) as [j2 [E2 H2]].
    exists (j1 ++ j2). rewrite E2, with_log_twice.
    split; [reflexivity | now apply Forall_app].
  - exists j1. split; [reflexivity | exact H1].
Qed.

Lemma quiet_try_except {A} (body : M A) (handler : exn -> M A) :
  quiet body -> (forall e, quiet (handler e)) -> quiet (try_except body handler).
Proof.
  intros Hm Hk w. unfold try_except. destruct (Hm w) as [j1 [E1 H1]].
  destruct (body w) as [[a|e] w1]; cbn [snd] in E1; subst w1.
  - exists j1. split; [reflexivity | exact H1].
  - destruct (Hk e (with_log (log w ++ j1) w)) as [j2 [E2 H2]].
    exists (j1 ++ j2). rewrite E2, with_log_twice.
    split; [reflexivity | now apply Forall_app].
Qed.

Lemma quiet_get_lambda_rec : quiet get_lambda_rec.
Proof.
  unfold get_lambda_rec.
  apply quiet_bind; [apply quiet_get_config | intros c].
  apply quiet_bind; [apply quiet_lift | intros tr]. apply quiet_lift.
Qed.

Lemma quiet_load_demographics th emb : quiet (load_demographics th emb).
Proof.
  unfold load_demographics, warn_demographic.
  apply quiet_try_except.
  - apply quiet_bind; [apply quiet_read | intros d].
    apply quiet_try_except.
    + apply quiet_bind; [apply quiet_lift | intros cs].
      apply quiet_bind; [now apply quiet_emit | intros _]. apply quiet_ret.
    + intros e. apply quiet_bind; [now apply quiet_emit | intros _].
      apply quiet_ret.
  - intros e. apply quiet_bind; [now apply quiet_emit | intros _].
    apply quiet_ret.
Qed.

Lemma quiet_validate_users (process : nat -> M metrics) (users : list nat) :
  (forall i, quiet (process i)) -> forall acc, quiet (validate_users process users acc).
Proof.
  intros Hp. induction users as [|i rest IH]; intros acc; cbn [validate_users].
  - apply quiet_ret.
  - apply quiet_bind; [apply Hp | intros user_metrics]. apply IH.
Qed.

Lemma quiet_validate_user b its us index video_ids vm emb top_k dd dc i :
  quiet (validate_user b its us index video_ids vm emb top_k dd dc i).
Proof.
  apply quiet_still. intros w.
  destruct (validate_user_raises b its us index video_ids vm emb top_k dd dc i w)
    as [e ->].
  reflexivity.
Qed.

Lemma quiet_validate_batches index video_ids vm emb top_k dd dc bs :
  forall acc, quiet (validate_batches index video_ids vm emb top_k dd dc bs acc).
Proof.
  induction bs as [|b bs IH]; intros [[total_loss metrics_accum] num_users];
    cbn [validate_batches].
  - apply quiet_ret.
  - apply quiet_bind; [apply quiet_get_world | intros w0].
    destruct (embed (ext w0) b) as [items_embeddings user_embeddings].
    apply quiet_bind; [apply quiet_get_lambda_rec | intros lam].
    apply quiet_bind; [|intros r; apply IH].
    apply quiet_validate_users. intros i. apply quiet_validate_user.
Qed.

Lemma quiet_compile_metrics tl cl rl accum n : quiet (_compile_metrics tl cl rl accum n).
Proof.
  unfold _compile_metrics.
  apply quiet_bind; [apply quiet_get_world | intros w0].
  apply quiet_bind; [apply quiet_lift | intros a].
  apply quiet_bind; [apply quiet_lift | intros b].
  apply quiet_bind; [apply quiet_lift | intros c].
  apply quiet_bind; [now apply quiet_emit | intros _].
  apply quiet_bind; [now apply quiet_emit | intros _].
  apply quiet_ret.
Qed.

(** Lines 110-194 of [validate]: what follows the check of the index. *)
Definition validate_rest (textual_history : dataframe)
    (df_videos_map : gmap string (gmap string cell))
    (index_path ids_path embeddings_path : string) : M (option metrics) :=
  bind (read (faiss_read_index index_path)) (fun index =>
  bind (read (np_load_ids ids_path)) (fun video_ids =>
  bind (read (np_load_embeddings embeddings_path)) (fun item_embeddings_array =>
  bind (load_demographics textual_history item_embeddings_array) (fun demo =>
  let '(demographic_data, demographic_centroids) := demo in
  bind get_config (fun c =>
  bind (lift (item "inference" (inference c))) (fun inf =>
  let top_k := default 10%Z (top_k inf) in
  bind get_world (fun w =>
  bind (validate_batches index video_ids df_videos_map item_embeddings_array
                         top_k demographic_data demographic_centroids
                         (val_loader w) (0, initial_accum, O)) (fun r =>
  let '(total_loss, metrics_accum, num_users) := r in
  bind (_compile_metrics total_loss 0 0 metrics_accum num_users) (fun m =>
  ret (Some m)))))))))).

Lemma validate_split :
  validate
  = bind (read (read_parquet "./data/textual_history.parquet")) (fun textual_history =>
    bind (read (read_parquet "./data/video_info.parquet")) (fun df_videos =>
    bind (lift (videos_map df_videos)) (fun df_videos_map =>
    bind get_config (fun c =>
    bind (lift (item "inference" (inference c))) (fun inf =>
    bind (lift (item "index_path" (index_path inf))) (fun index_path =>
    bind (lift (item "ids_path" (ids_path inf))) (fun ids_path =>
    bind (lift (item "embeddings_path" (embeddings_path inf))) (fun embeddings_path =>
    bind (ensure_index index_path ids_path embeddings_path) (fun have_index =>
    if negb have_index then ret None
    else validate_rest textual_history df_videos_map index_path ids_path
                       embeddings_path))))))))).
Proof. reflexivity. Qed.

Lemma quiet_validate_rest th vm ip idp ep : quiet (validate_rest th vm ip idp ep).
Proof.
  unfold validate_rest.
  apply quiet_bind; [apply quiet_read | intros index].
  apply quiet_bind; [apply quiet_read | intros video_ids].
  apply quiet_bind; [apply quiet_read | intros emb].
  apply quiet_bind; [apply quiet_load_demographics | intros [dd dc]].
  apply quiet_bind; [apply quiet_get_config | intros c].
  apply quiet_bind; [apply quiet_lift | intros inf].
  apply quiet_bind; [apply quiet_get_world | intros w0].
  apply quiet_bind; [apply quiet_validate_batches | intros [[tl ma] nu]].
  apply quiet_bind; [apply quiet_compile_metrics | intros m].
  apply quiet_ret.
Qed.

Definition index_missing_line : event :=
  Print "Index files not found, creating new index...".

Lemma ensure_index_cases (ip idp ep : string) (w : world) :
  (forallb (fun p => path_exists p (ext w)) [ip; idp; ep] = true /\
   ensure_index ip idp ep w = (Ok true, w)) \/
  (forallb (fun p => path_exists p (ext w)) [ip; idp; ep] = false /\
   exists r tail,
     ensure_index ip idp ep w
     = (Ok r, with_ext (snd (indexer_main (config w) (ext w)))
                (with_log (log w ++ index_missing_line
                                 :: Call_indexer (config w) :: tail) w)) /\
     Forall printed tail).
Proof.
  unfold ensure_index. run_monad.
  destruct (forallb _ _) eqn:Hall; [left; split; reflexivity | right].
  split; [reflexivity|]. cbn [with_log config ext log].
  destruct (indexer_main (config w) (ext w)) as [[u|e] x].
  - exists true, []. split; [|constructor].
    destruct w. unfold with_log, with_ext. cbn. now rewrite <- !app_assoc.
  - exists false, [PrintError "Error creating index: " e].
    split; [|repeat constructor].
    destruct w. unfold with_log, with_ext. cbn. now rewrite <- !app_assoc.
Qed.

(** How [validate] leaves the world, whatever its outcome: it has printed,
    and besides that at most asked once for the index to be created. *)
Lemma validate_world (w : world) :
  exists (j : list event) (x : Ext),
    snd (validate w) = with_ext x (with_log (log w ++ j) w) /\
    ((Forall printed j /\ x = ext w) \/
     (exists inf ip idp ep tail,
        inference (config w) = Some inf /\ index_path inf = Some ip /\
        ids_path inf = Some idp /\ embeddings_path inf = Some ep /\
        forallb (fun p => path_exists p (ext w)) [ip; idp; ep] = false /\
        j = index_missing_line :: Call_indexer (config w) :: tail /\
        Forall printed tail /\
        x = snd (indexer_main (config w) (ext w)))).
Proof.
  assert (Hstill : forall A (r : res A),
    exists (j : list event) (x : Ext),
      snd (r, w) = with_ext x (with_log (log w ++ j) w) /\
      ((Forall printed j /\ x = ext w) \/
       (exists inf ip idp ep tail,
          inference (config w) = Some inf /\ index_path inf = Some ip /\
          ids_path inf = Some idp /\ embeddings_path inf = Some ep /\
          forallb (fun p => path_exists p (ext w)) [ip; idp; ep] = false /\
          j = index_missing_line :: Call_indexer (config w) :: tail /\
          Forall printed tail /\
          x = snd (indexer_main (config w) (ext w))))).
  { intros A r. exists [], (ext w). split; [|left; split; [constructor | reflexivity]].
    cbn [snd]. now rewrite with_log_nil, with_ext_same. }
  rewrite validate_split. run_monad.
  destruct (read_parquet "./data/textual_history.parquet" (ext w)) as [th|e];
    [|apply Hstill].
  destruct (read_parquet "./data/video_info.parquet" (ext w)) as [dv|e];
    [|apply Hstill].
  destruct (videos_map dv) as [vm|e]; [|apply Hstill].
  destruct (inference (config w)) as [inf|] eqn:Hinf; [|apply Hstill].
  cbn [item].
  destruct (index_path inf) as [ip|] eqn:Hip; [|apply Hstill]. cbn [item].
  destruct (ids_path inf) as [idp|] eqn:Hidp; [|apply Hstill]. cbn [item].
  destruct (embeddings_path inf) as [ep|] eqn:Hep; [|apply Hstill]. cbn [item].
  destruct (ensure_index_cases ip idp ep w)
    as [[Hall Heq]|[Hall (r & tail & Heq & Htail)]]; rewrite Heq; clear Heq.
  - cbn [negb]. destruct (quiet_validate_rest th vm ip idp ep w) as [j [E Hj]].
    exists j, (ext w). rewrite E. split; [now destruct w | auto].
  - destruct r; cbn [negb].
    + match goal with
      | |- context [validate_rest th vm ip idp ep ?w1] =>
        destruct (quiet_validate_rest th vm ip idp ep w1) as [j [E Hj]]
      end.
      exists (index_missing_line :: Call_indexer (config w) :: tail ++ j),
             (snd (indexer_main (config w) (ext w))).
      split.
      * rewrite E. destruct w. unfold with_log, with_ext. cbn.
        now rewrite <- !app_assoc.
      * right. exists inf, ip, idp, ep, (tail ++ j).
        repeat split; auto. now apply Forall_app.
    + exists (index_missing_line :: Call_indexer (config w) :: tail),
             (snd (indexer_main (config w) (ext w))).
      split; [reflexivity|]. right. exists inf, ip, idp, ep, tail.
      repeat split; auto.
Qed.

Lemma printed_not_call (c : cfg) (j : list event) :
  Forall printed j -> Call_indexer c ∉ j.
Proof.
  intros Hj Hin. rewrite Forall_forall in Hj. exact (Hj _ Hin).
Qed.

(** X19. Whatever its outcome, [validate] leaves the configuration, the two
    loaders and [val_dataset] as they are and only adds to the log.  What
    it adds is output, except for at most one request to create the index,
    made with the trainer's own configuration; without such a request the
    outside world is unchanged, and there is no request when the three
    index files exist. *)
Theorem validate_frame (w : world) :
  let w' := snd (validate w) in
  config w' = config w /\ train_loader w' = train_loader w /\
  val_loader w' = val_loader w /\ val_dataset w' = val_dataset w /\
  exists j,
    log w' = log w ++ j /\
    (forall e, e ∈ j -> printed e \/ e = Call_indexer (config w)) /\
    (Call_indexer (config w) ∉ j -> ext w' = ext w) /\
    (forall inf ip idp ep,
       inference (config w) = Some inf -> index_path inf = Some ip ->
       ids_path inf = Some idp -> embeddings_path inf = Some ep ->
       forallb (fun p => path_exists p (ext w)) [ip; idp; ep] = true ->
       Call_indexer (config w) ∉ j).
Proof.
  cbv zeta. destruct (validate_world w) as (j & x & -> & Hcase).
  repeat (split; [reflexivity|]).
  exists j. split; [reflexivity|].
  destruct Hcase as [[Hj ->]|(inf & ip & idp & ep & tail & Hinf & Hip & Hidp
                               & Hep & Hall & -> & Htail & ->)].
  - split; [|split].
    + intros e He. left. rewrite Forall_forall in Hj. auto.
    + reflexivity.
    + intros. now apply printed_not_call.
  - split; [|split].
    + intros e He. apply elem_of_cons in He as [->|He]; [left; exact I|].
      apply elem_of_cons in He as [->|He]; [now right|].
      left. rewrite Forall_forall in Htail. auto.
    + intros Hno. exfalso. apply Hno. right. left.
    + intros inf' ip' idp' ep' Hinf' Hip' Hidp' Hep' Hall'.
      rewrite Hinf in Hinf'. injection Hinf' as <-.
      rewrite Hip in Hip'. injection Hip' as <-.
      rewrite Hidp in Hidp'. injection Hidp' as <-.
      rewrite Hep in Hep'. injection Hep' as <-.
      congruence.
Qed.

(** X20. [validate] can only return a metrics dict for a non-empty
    validation loader none of whose batches yields a user embedding, and
    the dict then has no key besides the three losses. *)
Theorem validate_returns_only_without_users (w w' : world) (m : metrics) :
  validate w = (Ok (Some m), w') ->
  val_loader w <> [] /\
  Forall (fun b => snd (embed (ext w') b) = []) (val_loader w) /\
  (forall k, is_Some (m !! k) ->
             k ∈ ["val_loss"; "val_contrastive_loss"; "val_recommendation_loss"]).
Proof.
  intros Hv.
  destruct (validate_world w) as (j & x & Hw & _). rewrite Hv in Hw. cbn [snd] in Hw.
  apply validate_returns_inv in Hv as (total_loss & w2 & Hall & Hc).
  destruct (quiet_compile_metrics total_loss 0 0 initial_accum 0 w2) as [j2 [E2 _]].
  rewrite Hc in E2. cbn [snd] in E2.
  assert (Hl : val_loader w2 = val_loader w).
  { transitivity (val_loader w'); [now rewrite E2 | now rewrite Hw]. }
  assert (Hx : ext w2 = ext w') by (now rewrite E2).
  rewrite Hl, Hx in Hall. split; [|split; [exact Hall|]].
  - intros Hnil. rewrite <- Hl in Hnil.
    unfold _compile_metrics in Hc. revert Hc. run_monad. rewrite Hnil.
    discriminate.
  - unfold _compile_metrics in Hc. revert Hc. run_monad. intros Hc.
    repeat case_step Hc. injection Hc as <- _.
    intros k [v Hk].
    destruct (decide (k = "val_recommendation_loss")) as [->|H1];
      [do 2 right; left|].
    destruct (decide (k = "val_contrastive_loss")) as [->|H2]; [right; left|].
    destruct (decide (k = "val_loss")) as [->|H3]; [left|].
    rewrite !lookup_insert_ne, lookup_empty in Hk by congruence. discriminate Hk.
Qed.

(** *** [_save_checkpoint] when something is missing *)

(** X21. [_save_checkpoint] without a [training] section or without
    [checkpoint_dir] raises the [KeyError] before it has done anything; a
    failure to make the directory or to save the model is not caught; and
    without an [inference] section the model has already been saved when
    the [KeyError] is raised: the configuration is unchanged and the index
    is not rebuilt. *)
Theorem save_checkpoint_failures (epoch : nat) (m : option metrics) (w : world) :
  (training (config w) = None ->
   _save_checkpoint epoch m w = (Raise (KeyError "training"), w)) /\
  (forall tr, training (config w) = Some tr -> checkpoint_dir tr = None ->
     _save_checkpoint epoch m w = (Raise (KeyError "checkpoint_dir"), w)) /\
  (forall tr dir e x1,
     training (config w) = Some tr -> checkpoint_dir tr = Some dir ->
     makedirs dir (ext w) = (Raise e, x1) ->
     _save_checkpoint epoch m w
     = (Raise e, with_ext x1 (with_log (log w ++ [Call_makedirs dir]) w))) /\
  (forall tr dir e x1 x2,
     training (config w) = Some tr -> checkpoint_dir tr = Some dir ->
     makedirs dir (ext w) = (Ok tt, x1) ->
     save_pretrained (checkpoint_path dir epoch) x1 = (Raise e, x2) ->
     _save_checkpoint epoch m w
     = (Raise e,
        with_ext x2
          (with_log (log w ++ [Call_makedirs dir;
                               Call_save_pretrained (checkpoint_path dir epoch)])
                    w))) /\
  (forall tr dir x1 x2,
     training (config w) = Some tr -> checkpoint_dir tr = Some dir ->
     makedirs dir (ext w) = (Ok tt, x1) ->
     save_pretrained (checkpoint_path dir epoch) x1 = (Ok tt, x2) ->
     inference (config w) = None ->
     _save_checkpoint epoch m w
     = (Raise (KeyError "inference"),
        with_ext x2
          (with_log (log w ++ [Call_makedirs dir;
                               Call_save_pretrained (checkpoint_path dir epoch)])
                    w))).
Proof.
  unfold _save_checkpoint. run_monad. repeat split.
  - intros ->. reflexivity.
  - intros tr -> Hd. cbn [item]. rewrite Hd. reflexivity.
  - intros tr dir e x1 -> Hd Hmk. cbn [item]. rewrite Hd. cbn [item].
    cbn [with_log ext]. rewrite Hmk. reflexivity.
  - intros tr dir e x1 x2 -> Hd Hmk Hsv. cbn [item]. rewrite Hd. cbn [item].
    cbn [with_log ext]. rewrite Hmk. cbn [with_ext with_log ext log].
    rewrite Hsv. destruct w. unfold with_ext, with_log. cbn.
    now rewrite <- app_assoc.
  - intros tr dir x1 x2 Htr Hd Hmk Hsv Hinf. rewrite Htr. cbn [item].
    rewrite Hd. cbn [item]. cbn [with_log ext]. rewrite Hmk.
    cbn [with_ext with_log ext log]. rewrite Hsv, Hinf.
    destruct w. unfold with_ext, with_log. cbn. now rewrite <- app_assoc.
Qed.

End MoreTrainerFacts.

Lemma prefix_slash_model (suffix : string) :
  String.prefix "/" ("model_epoch_" +:+ suffix) = false.
Proof. reflexivity. Qed.

(** X22. The checkpoints of different epochs never share a path, and a
    checkpoint path is the checkpoint directory followed by the file name,
    with a slash between them where the directory does not end in one. *)
Theorem checkpoint_path_injective (dir : string) (e1 e2 : nat) :
  (checkpoint_path dir e1 = checkpoint_path dir e2 -> e1 = e2) /\
  exists sep, (sep = "" \/ sep = "/") /\
    checkpoint_path dir e1 = dir +:+ sep +:+ "model_epoch_" +:+ pretty e1.
Proof.
  unfold checkpoint_path, os_path_join. rewrite !prefix_slash_model.
  destruct (String.eqb dir "" || ends_with_slash dir)%bool; split.
  - intros Heq. apply String.app_inj in Heq. apply String.app_inj in Heq.
    now apply (inj pretty) in Heq.
  - exists "". split; [now left | reflexivity].
  - intros Heq. apply String.app_inj in Heq.
    apply (String.app_inj "/") in Heq. apply String.app_inj in Heq.
    now apply (inj pretty) in Heq.
  - exists "/". split; [now right | reflexivity].
Qed.

(** *** The demographic centroids *)






Lemma build_centroids_missing d th emb (features : list string) :
  forall acc : centroids,
    (exists f, f ∈ features /\ d !! f = None) ->
    exists e, build_centroids d th emb features acc = Raise e.
Proof.
  induction features as [|f rest IH]; intros acc [f0 [Hin Hmiss]];
    [inversion Hin|].
  cbn [build_centroids]. unfold column at 1.
  destruct (d !! f) as [col|] eqn:Ef; [|eexists; reflexivity]. cbn [item].
  destruct (group_centroids d th emb col (unique col) ∅) as [groups|e];
    [|eexists; reflexivity].
  apply IH. exists f0. split; [|exact Hmiss].
  apply elem_of_cons in Hin as [->|Hin]; [congruence | exact Hin].
Qed.

Section DemographicFacts.

Context `{Collaborators}.

(** X24. The [try] block around the demographic data never raises.  When
    the table cannot be read it prints the warning and leaves both the
    table and the centroids unset; when the table lacks one of the three
    feature columns it prints the warning and the centroids are [None];
    it announces the loaded features exactly when the centroids could be
    built. *)
Theorem load_demographics_cases (textual_history : dataframe)
    (item_embeddings_array : list vec) (w : world) :
  let warning e := PrintError "Warning: Could not load demographic data: " e in
  (exists r w',
     load_demographics textual_history item_embeddings_array w = (Ok r, w')) /\
  (forall e, read_parquet "./data/demographic_data.parquet" (ext w) = Raise e ->
     load_demographics textual_history item_embeddings_array w
     = (Ok (None, None), with_log (log w ++ [warning e]) w)) /\
  (forall d, read_parquet "./data/demographic_data.parquet" (ext w) = Ok d ->
     (exists f, f ∈ demographic_features /\ d !! f = None) ->
     exists e,
       load_demographics textual_history item_embeddings_array w
       = (Ok (Some d, None), with_log (log w ++ [warning e]) w)) /\
  (forall d cs, read_parquet "./data/demographic_data.parquet" (ext w) = Ok d ->
     load_demographics textual_history item_embeddings_array w
     = (Ok (Some d, Some cs),
        with_log (log w ++ [Print "Loaded demographic data with features: ['age_group', 'sex', 'region']"]) w) <->
     build_centroids d textual_history item_embeddings_array
                     demographic_features ∅ = Ok cs).
Proof.
  cbv zeta. split; [apply load_demographics_returns|].
  unfold load_demographics. run_monad. split; [|split].
  - intros e ->. reflexivity.
  - intros d -> Hmiss.
    destruct (build_centroids_missing d textual_history item_embeddings_array
                demographic_features ∅ Hmiss) as [e ->].
    exists e. reflexivity.
  - intros d cs ->.
    destruct (build_centroids d textual_history item_embeddings_array
                demographic_features ∅) as [cs'|e]; split.
    + intros [= ->]. reflexivity.
    + intros [= ->]. reflexivity.
    + intros [= ]. 
    + discriminate.
Qed.

End DemographicFacts.

(** *** A small concrete set of collaborators

    The outside world is the list of files that exist and whether the
    index service works. Every table has one row; the network maps every
    item to [1, 0] and every user to [0, 1]; the index always answers with
    its first entry. *)
Record toy_ext := ToyExt {
  files : list string;
  index_service_up : bool }.

Definition toy_table (path : string) : dataframe :=
  if String.eqb path "./data/textual_history.parquet" then
    {["viewer_uid" := [CInt 7]]}
  else if String.eqb path "./data/video_info.parquet" then
    <["clean_video_id" := [CStr "v1"]]> {["category" := [CStr "music"]]}
  else
    <["viewer_uid" := [CInt 7]]>
      (<["age_group" := [CStr "18-25"]]>
         (<["sex" := [CStr "f"]]> {["region" := [CStr "north"]]})).

Definition toy_open {A} (path : string) (x : toy_ext) (a : A) : res A :=
  if bool_decide (path ∈ files x) then Ok a
  else Raise (Failure ("FileNotFoundError: " +:+ path)).

Definition toy_index_files (c : cfg) : list string :=
  match inference c with
  | Some inf =>
    option_list (index_path inf) ++ option_list (ids_path inf)
      ++ option_list (embeddings_path inf)
  | None => []
  end.

Global Instance toy : Collaborators := {|
  Ext := toy_ext;
  tokens := unit;
  faiss_index := unit;
  forward := fun _ _ _ item_ids user_ids =>
    (map (fun _ => [1; 0]) item_ids, map (fun _ => [0; 1]) user_ids);
  normalize := fun x => x;
  contrastive_loss_fn := fun _ _ _ => 1 # 2;
  recommendation_loss_fn := fun _ _ => 1 # 4;
  optimizer_step := fun _ _ _ _ x => x;
  read_parquet := fun path x => toy_open path x (toy_table path);
  path_exists := fun path x => bool_decide (path ∈ files x);
  indexer_main := fun c x =>
    if index_service_up x
    then (Ok tt, ToyExt (toy_index_files c ++ files x) true)
    else (Raise (Failure "index service unavailable"), x);
  faiss_read_index := fun path x => toy_open path x tt;
  index_search := fun _ _ _ => ([1], [0%Z]);
  np_load_ids := fun path x => toy_open path x ["v1"];
  np_load_embeddings := fun path x => toy_open path x [[1; 0]];
  makedirs := fun _ x => (Ok tt, x);
  save_pretrained := fun path x => (Ok tt, ToyExt (path :: files x) (index_service_up x));
  demographic_alignment_score := fun _ _ _ => ∅ |}.

Definition toy_config : cfg :=
  Cfg (Some (TrainingCfg (Some (1 # 2)) (Some 3%Z) (Some "checkpoints")))
      (Some (InferenceCfg (Some "index.faiss") (Some "ids.npy") (Some "emb.npy")
                          None None))
      None.

Definition data_files : list string :=
  ["./data/textual_history.parquet"; "./data/video_info.parquet"].
Definition demographic_file : string := "./data/demographic_data.parquet".
Definition index_files : list string := ["index.faiss"; "ids.npy"; "emb.npy"].

(** One batch with one user, and one batch without any. *)
Definition one_user : batch := Batch tt tt [0%Z] [0%Z].
Definition no_user : batch := Batch tt tt [] [].

Definition toy_world (existing : list string) (up : bool) (loader : list batch)
  : world :=
  World toy_config [one_user] loader None [] (ToyExt existing up).

(** *** The methods on the concrete collaborators *)

Definition all_files : list string :=
  data_files ++ demographic_file :: index_files.

(** C1. [_process_user] computes no metric at all: whatever its arguments,
    it ends in an exception. With centroids it fails on [self.val_dataset]
    (or, were that attribute set, on the undefined name [user_ids]);
    without centroids it returns the never-assigned [user_metrics]. So a
    validation over one batch with one user raises instead of returning the
    per-user metrics. *)
Theorem process_user_never_returns_metrics :
  (forall (C : Collaborators) (user_emb target_emb : vec) (item_id user_id : Z)
          (index : faiss_index) (video_ids : list string)
          (df_videos_map : gmap string (gmap string cell))
          (item_embeddings : list vec) (top_k : Z)
          (demographic_data : option dataframe)
          (demographic_centroids : option centroids) (w : world),
     exists e,
       _process_user user_emb target_emb item_id user_id index video_ids
                     df_videos_map item_embeddings top_k demographic_data
                     demographic_centroids w
       = (Raise e, w)) /\
  fst (validate (toy_world all_files true [one_user]))
    = Raise (AttributeError "val_dataset") /\
  fst (_process_user [0; 1] [1; 0] 0%Z 0%Z tt ["v1"] ∅ [[1; 0]] 10%Z None None
                     (toy_world all_files true [one_user]))
    = Raise (UnboundLocalError "user_metrics") /\
  fst (_process_user [0; 1] [1; 0] 0%Z 0%Z tt ["v1"] ∅ [[1; 0]] 10%Z None (Some ∅)
                     (World toy_config [] [one_user] (Some ∅) []
                            (ToyExt all_files true)))
    = Raise (NameError "user_ids").
Proof.
  split; [intros C; apply process_user_raises|].
  repeat split; vm_compute; reflexivity.
Qed.

(** C2. With the demographic table missing, [validate] prints the warning
    and goes on, but the first user of the first batch makes it raise: the
    call of [_process_user] reads the local variable [demographic_data],
    which the failed [try] block has left unbound. The exception leaves
    [validate] and [train]. *)
Theorem demographic_failure_aborts_validation :
  let w := toy_world (data_files ++ index_files) true [one_user] in
  fst (validate w) = Raise (UnboundLocalError "demographic_data") /\
  log (snd (validate w))
    = [PrintError "Warning: Could not load demographic data: "
                  (Failure "FileNotFoundError: ./data/demographic_data.parquet")] /\
  fst (fst (fst (trainer_train 2 (init toy_config) w)))
    = Raised (UnboundLocalError "demographic_data").
Proof. repeat split; vm_compute; reflexivity. Qed.

(** A validation that does return metrics: one batch, no user in it. *)
Definition toy_metrics : metrics :=
  <["val_loss" := 9 # 8]>
    (<["val_contrastive_loss" := 0]> (<["val_recommendation_loss" := 0]> ∅)).

Lemma toy_validate_returns :
  fst (validate (toy_world all_files true [no_user])) = Ok (Some toy_metrics).
Proof. vm_compute. reflexivity. Qed.

Lemma validation_component_losses_zero_witness :
  toy_metrics !! "val_contrastive_loss" = Some 0 /\
  toy_metrics !! "val_recommendation_loss" = Some 0.
Proof.
  apply (validation_component_losses_zero
           (toy_world all_files true [no_user])
           (snd (validate (toy_world all_files true [no_user])))).
  rewrite <- toy_validate_returns. apply surjective_pairing.
Defined.

Lemma validation_skipped_without_index_witness :
  let w := toy_world (data_files ++ ["ids.npy"; "emb.npy"]) false [one_user] in
  fst (validate w) = Ok None /\
  forall (epoch : nat) (s : trainer),
    fst (fst (fst (after_validation _save_checkpoint epoch None s
                                    (snd (validate w))))) = Next /\
    snd (fst (fst (after_validation _save_checkpoint epoch None s
                                    (snd (validate w))))) = s.
Proof.
  cbv zeta.
  destruct (validation_skipped_without_index
              (toy_world (data_files ++ ["ids.npy"; "emb.npy"]) false [one_user])
              (toy_table "./data/textual_history.parquet")
              (toy_table "./data/video_info.parquet")
              {["v1" := {["category" := CStr "music"]}]}
              (InferenceCfg (Some "index.faiss") (Some "ids.npy") (Some "emb.npy")
                            None None)
              "index.faiss" "ids.npy" "emb.npy"
              (Failure "index service unavailable")
              (ToyExt (data_files ++ ["ids.npy"; "emb.npy"]) false))
    as [Hv [Hafter _]].
  - vm_compute. reflexivity.
  - vm_compute. reflexivity.
  - vm_compute. reflexivity.
  - reflexivity.
  - reflexivity.
  - reflexivity.
  - reflexivity.
  - exists "index.faiss". split; [left | vm_compute; reflexivity].
  - vm_compute. reflexivity.
  - rewrite Hv. split; [reflexivity|].
    intros epoch s. cbn [snd]. rewrite Hafter. split; reflexivity.
Defined.

Lemma save_checkpoint_survives_rebuild_failure_witness :
  let w := toy_world [] false [] in
  fst (_save_checkpoint 0 None w) = Ok tt /\
  log (snd (_save_checkpoint 0 None w))
    = [Call_makedirs "checkpoints";
       Call_save_pretrained "checkpoints/model_epoch_0";
       Call_indexer
         (Cfg (training toy_config)
              (Some (InferenceCfg (Some "index.faiss") (Some "ids.npy")
                                  (Some "emb.npy") None
                                  (Some "checkpoints/model_epoch_0")))
              None);
       PrintError "Error updating index: " (Failure "index service unavailable")].
Proof.
  cbv zeta.
  destruct (save_checkpoint_survives_rebuild_failure 0 None
              (toy_world [] false [])
              (TrainingCfg (Some (1 # 2)) (Some 3%Z) (Some "checkpoints"))
              "checkpoints"
              (InferenceCfg (Some "index.faiss") (Some "ids.npy") (Some "emb.npy")
                            None None)
              (ToyExt [] false)
              (ToyExt ["checkpoints/model_epoch_0"] false))
    as [_ [Hs _]].
  - reflexivity.
  - reflexivity.
  - reflexivity.
  - reflexivity.
  - vm_compute. reflexivity.
  - rewrite Hs. split; [reflexivity | vm_compute; reflexivity].
Defined.

(** *** The facts above on the concrete collaborators *)

Lemma validation_metric_is_zero_witness :
  toy_metrics <> ∅ /\ default 0 (toy_metrics !! "contextual_ndcg") = 0.
Proof.
  destruct (validation_metric_is_zero
              (toy_world all_files true [no_user])
              (snd (validate (toy_world all_files true [no_user])))
              toy_metrics) as (Hne & Hzero & _).
  - rewrite <- toy_validate_returns. apply surjective_pairing.
  - split; [exact Hne | exact Hzero].
Defined.

Lemma train_epoch_metrics_witness :
  exists (m : metrics) (loss c_loss r_loss : Q),
    train_epoch (toy_world [] true [])
    = (Ok m, with_ext (fold_left step_on [one_user] (ext (toy_world [] true [])))
                      (toy_world [] true [])) /\
    m !! "loss" = Some loss /\
    m !! "contrastive_loss" = Some c_loss /\
    m !! "recommendation_loss" = Some r_loss /\
    (forall k, is_Some (m !! k) ->
               k ∈ ["loss"; "contrastive_loss"; "recommendation_loss"]) /\
    loss == c_loss + (1 # 2) * r_loss.
Proof.
  apply (train_epoch_metrics (toy_world [] true [])
           (TrainingCfg (Some (1 # 2)) (Some 3%Z) (Some "checkpoints"))
           (1 # 2) one_user []); reflexivity.
Defined.

Lemma train_epoch_edges_witness :
  train_epoch (@World toy toy_config [] [] None [] (ToyExt [] true))
  = (Raise ZeroDivisionError, @World toy toy_config [] [] None [] (ToyExt [] true)).
Proof.
  apply (proj1 (train_epoch_edges (@World toy toy_config [] [] None [] (ToyExt [] true)))).
  reflexivity.
Defined.

Lemma compile_metrics_spec_witness :
  _compile_metrics (9 # 8) 0 0 initial_accum 2 (toy_world [] true [])
  = (Raise ZeroDivisionError, toy_world [] true []).
Proof.
  apply (proj1 (compile_metrics_spec (9 # 8) 0 0 initial_accum 2
                                     (toy_world [] true []))).
  reflexivity.
Defined.

Lemma validate_frame_witness :
  ext (snd (validate (toy_world all_files true [no_user])))
  = ext (toy_world all_files true [no_user]).
Proof.
  destruct (validate_frame (toy_world all_files true [no_user]))
    as (_ & _ & _ & _ & j & _ & _ & Hext & Hno).
  apply Hext.
  apply (Hno (InferenceCfg (Some "index.faiss") (Some "ids.npy") (Some "emb.npy")
                           None None)
             "index.faiss" "ids.npy" "emb.npy"); reflexivity.
Defined.

Lemma validate_returns_only_without_users_witness :
  val_loader (toy_world all_files true [no_user]) <> [] /\
  Forall (fun b => snd (embed (ext (snd (validate (toy_world all_files true [no_user])))) b) = [])
         (val_loader (toy_world all_files true [no_user])) /\
  (forall k, is_Some (toy_metrics !! k) ->
             k ∈ ["val_loss"; "val_contrastive_loss"; "val_recommendation_loss"]).
Proof.
  apply (validate_returns_only_without_users
           (toy_world all_files true [no_user])
           (snd (validate (toy_world all_files true [no_user])))
           toy_metrics).
  rewrite <- toy_validate_returns. apply surjective_pairing.
Defined.

Lemma save_checkpoint_failures_witness :
  _save_checkpoint 0 None (@World toy (Cfg None None None) [] [] None [] (ToyExt [] true))
  = (Raise (KeyError "training"),
     @World toy (Cfg None None None) [] [] None [] (ToyExt [] true)).
Proof.
  apply (proj1 (save_checkpoint_failures 0 None
                  (@World toy (Cfg None None None) [] [] None [] (ToyExt [] true)))).
  reflexivity.
Defined.

Lemma checkpoint_path_injective_witness : 3%nat = 3%nat.
Proof.
  apply (proj1 (checkpoint_path_injective "checkpoints" 3 3)). reflexivity.
Defined.

Definition toy_centroids : centroids :=
  match build_centroids (toy_table demographic_file)
                        (toy_table "./data/textual_history.parquet")
                        [[1; 0]] demographic_features ∅ with
  | Ok cs => cs
  | Raise _ => ∅
  end.


Example toy_centroid_of_sex :
  toy_centroids !! "sex" = Some {[CStr "f" := [1; 0]]}.
Proof. vm_compute. reflexivity. Qed.

Lemma load_demographics_cases_witness :
  load_demographics (toy_table "./data/textual_history.parquet") [[1; 0]]
                    (toy_world data_files true [])
  = (Ok (None, None),
     with_log (log (toy_world data_files true [])
               ++ [PrintError "Warning: Could not load demographic data: "
                              (Failure "FileNotFoundError: ./data/demographic_data.parquet")])
              (toy_world data_files true [])).
Proof.
  apply (proj1 (proj2 (load_demographics_cases
                         (toy_table "./data/textual_history.parquet") [[1; 0]]
                         (toy_world data_files true [])))).
  vm_compute. reflexivity.
Defined.

End Trainer.
